(** * miniauthy: a password-protected vault of TOTP secrets

    A shallow embedding of [miniauthy.py].  The two Qt classes of the file,
    [TOTPModel] (the vault and its list model) and [TOTP] (the per-row
    helper), are embedded as functions in a state-and-exception monad over
    the model object and the outside world (file system, random source,
    wall clock, emitted notifications).

    The third-party packages the program calls (cryptography, pyotp, json,
    base64) are not part of the program; they enter through the interface
    [Libs], and every property of them a proof relies on is an explicit
    hypothesis of the theorem that uses it. *)

From Stdlib Require Import ZArith QArith Qround Lqa String Ascii.
From Stdlib.Strings Require Import Byte.
From stdpp Require Import base list strings gmap.

(** ** Python values and exceptions *)

Definition bytes := list byte.

(** [str.encode()]: Python strings are held as their UTF-8 bytes. *)
Definition str_encode (s : string) : bytes := list_byte_of_string s.

(** The exception classes that occur.  Subclasses of [ValueError]
    ([binascii.Error], [json.JSONDecodeError], [UnicodeDecodeError]) are
    [ValueError] here, since the program only ever tests
    [except ValueError].  [InvalidToken] derives from [Exception]. *)
Inductive exn :=
| ValueError
| TypeError
| AttributeError
| ZeroDivisionError
| OverflowError
| IndexError
| OSError
| InvalidToken.

Inductive result (A : Type) :=
| Return (a : A)
| Raise (e : exn).
Arguments Return {A} a.
Arguments Raise {A} e.

(** What [json.load] builds.  A [dict] keeps insertion order, so it is an
    association list; only its values are ever walked. *)
#[local] Unset Elimination Schemes.
Inductive PyVal :=
| PNone
| PBool (b : bool)
| PInt (n : Z)
| PFloat (q : Q)
| PStr (s : string)
| PList (items : list PyVal)
| PDict (items : list (string * PyVal)).
#[local] Set Elimination Schemes.

(** Iterating a value, as in [for totp in totps]: a list yields its items,
    a dict its keys, a string its characters, and anything else is not
    iterable. *)
Fixpoint str_chars (s : string) : list string :=
  match s with
  | EmptyString => []
  | String c r => String c EmptyString :: str_chars r
  end.

Definition py_iter (v : PyVal) : result (list PyVal) :=
  match v with
  | PList items => Return items
  | PDict items => Return (PStr <$> items.*1)
  | PStr s => Return (PStr <$> str_chars s)
  | _ => Raise TypeError
  end.

(** ** pyotp objects *)

Module pyotp.
Inductive Digest := sha1 | sha256 | sha512.

(** The attributes of a [pyotp.TOTP] object.  [name] is always a string
    (the constructor stores [name or "Secret"]); [issuer] may be
    [None]. *)
Record TOTP := {
  secret : string;
  digits : Z;
  digest : Digest;
  name : string;
  issuer : option string;
  interval : Z
}.
End pyotp.

(** ** The interface to the third-party packages *)

Class Libs := {
  (** [pathlib.Path("~").expanduser()] *)
  home : string;
  (** [PBKDF2HMAC(algorithm, length, salt, iterations).derive(key_material)] *)
  PBKDF2HMAC_derive : pyotp.Digest → nat → bytes → N → bytes → bytes;
  (** [base64.urlsafe_b64encode] *)
  urlsafe_b64encode : bytes → bytes;
  (** [fernet.Fernet(key)] raises [ValueError] unless the key is the
      url-safe base64 encoding of 32 bytes. *)
  fernet_key_ok : bytes → bool;
  (** [Fernet(key).encrypt(data)], made a function of the time stamp and
      of the 16 random bytes it draws. *)
  fernet_encrypt : bytes → Q → bytes → bytes → bytes;
  (** [Fernet(key).decrypt(token)]; [None] stands for [InvalidToken]. *)
  fernet_decrypt : bytes → bytes → option bytes;
  (** [json.dumps] of a list of strings. *)
  json_dumps : list string → string;
  (** [json.loads] / [json.load]. *)
  json_loads : bytes → result PyVal;
  (** [pyotp.TOTP(secret, issuer=issuer, name=name)] *)
  TOTP_new : string → string → string → result pyotp.TOTP;
  (** [totp.now()], as a function of the clock reading it takes. *)
  TOTP_now : pyotp.TOTP → Q → result string;
  (** [pyotp.parse_uri] on a string. *)
  parse_uri : string → result pyotp.TOTP;
  (** [pyotp.parse_uri] on a value that is not a string: which exception
      [urllib] then raises depends on the value and on the version. *)
  parse_uri_other : PyVal → result pyotp.TOTP;
  (** [totp.provisioning_uri()] *)
  provisioning_uri : pyotp.TOTP → string
}.

(** ** Qt model indexes *)

Module Qt.
Inductive ItemDataRole :=
| DisplayRole
| UserRole
| OtherRole (n : Z).

(** A [QModelIndex]: whether it is valid, its row and column, whether
    it belongs to the model it is handed to, and whether its parent is
    valid. *)
Record QModelIndex := {
  isValid : bool;
  row : Z;
  column : Z;
  own : bool;
  parentIsValid : bool
}.

(** [QModelIndex()] *)
Definition invalid : QModelIndex :=
  {| isValid := false; row := -1; column := -1; own := false;
     parentIsValid := false |}.

(** [createIndex(row, column)] of a list model: the parent is invalid. *)
Definition createIndex (r c : Z) : QModelIndex :=
  {| isValid := true; row := r; column := c; own := true;
     parentIsValid := false |}.
End Qt.

(** ** State *)

Inductive Signal :=
| unlockedChanged
| failedToLoadChanged
| modelChanged
| indexChanged
| currentCodeChanged
| timeLeftChanged.

(** What the outside observes, in order of occurrence. *)
Inductive Event :=
| Emit (s : Signal)
| BeginResetModel
| EndResetModel
| BeginInsertRows (first last : Z)
| EndInsertRows
| WriteBytes (path : string) (data : bytes).

(** The fields of a [TOTPModel] object. *)
Record TOTPModel := {
  _totps : list pyotp.TOTP;
  _salt : bytes;
  _key : bytes;
  _unlocked : bool;
  _failedToLoad : bool
}.

(** [TOTPModel.__init__] *)
Definition TOTPModel_init : TOTPModel :=
  {| _totps := []; _salt := []; _key := []; _unlocked := false;
     _failedToLoad := false |}.

(** The world outside the object: the files, the random source
    ([entropy], of which [drawn] bytes are used up), the wall clock (its
    successive readings, of which [reads] are used up), and the events so
    far. *)
Record World := {
  files : gmap string bytes;
  entropy : nat → byte;
  drawn : nat;
  clock : nat → Q;
  reads : nat;
  trace : list Event
}.

Record State := {
  self : TOTPModel;
  world : World
}.

(** ** The monad: state that survives a raised exception *)

Definition Py (A : Type) : Type := State → result A * State.

Definition ret {A} (a : A) : Py A := λ st, (Return a, st).

Definition bind {A B} (m : Py A) (k : A → Py B) : Py B := λ st,
  match m st with
  | (Return a, st') => k a st'
  | (Raise e, st') => (Raise e, st')
  end.

Definition raise {A} (e : exn) : Py A := λ st, (Raise e, st).

(** A library call, which has no effect on the state. *)
Definition lift {A} (r : result A) : Py A := λ st, (r, st).

(** [try: body / except ValueError: handler] *)
Definition try_except_ValueError {A} (body handler : Py A) : Py A := λ st,
  match body st with
  | (Raise ValueError, st') => handler st'
  | r => r
  end.

Declare Scope py_scope.
Delimit Scope py_scope with py.
Notation "x <- m ;; k" := (bind m (λ x, k))
  (at level 100, m at next level, right associativity) : py_scope.
Notation "m ;; k" := (bind m (λ _, k))
  (at level 100, right associativity) : py_scope.
Local Open Scope py_scope.

Definition get_self : Py TOTPModel := λ st, (Return (self st), st).

Definition set_self (f : TOTPModel → TOTPModel) : Py unit := λ st,
  (Return tt, {| self := f (self st); world := world st |}).

Definition set_world (f : World → World) : Py unit := λ st,
  (Return tt, {| self := self st; world := f (world st) |}).

Definition with_totps (l : list pyotp.TOTP) (m : TOTPModel) : TOTPModel :=
  {| _totps := l; _salt := _salt m; _key := _key m;
     _unlocked := _unlocked m; _failedToLoad := _failedToLoad m |}.

Definition with_salt_key (s k : bytes) (m : TOTPModel) : TOTPModel :=
  {| _totps := _totps m; _salt := s; _key := k;
     _unlocked := _unlocked m; _failedToLoad := _failedToLoad m |}.

Definition with_unlocked (b : bool) (m : TOTPModel) : TOTPModel :=
  {| _totps := _totps m; _salt := _salt m; _key := _key m;
     _unlocked := b; _failedToLoad := _failedToLoad m |}.

Definition with_failedToLoad (b : bool) (m : TOTPModel) : TOTPModel :=
  {| _totps := _totps m; _salt := _salt m; _key := _key m;
     _unlocked := _unlocked m; _failedToLoad := b |}.

Definition log (e : Event) (w : World) : World :=
  {| files := files w; entropy := entropy w; drawn := drawn w;
     clock := clock w; reads := reads w; trace := trace w ++ [e] |}.

(** Signals and model notifications only leave a mark in the trace. *)
Definition notify (e : Event) : Py unit := set_world (log e).

Definition emit (s : Signal) : Py unit := notify (Emit s).

(** [os.urandom(n)] *)
Definition os_urandom (n : nat) : Py bytes := λ st,
  let w := world st in
  (Return (entropy w <$> seq (drawn w) n),
   {| self := self st;
      world := {| files := files w; entropy := entropy w;
                  drawn := (drawn w + n)%nat; clock := clock w;
                  reads := reads w; trace := trace w |} |}).

(** [datetime.datetime.now().timestamp()] and [time.time()] *)
Definition timestamp : Py Q := λ st,
  let w := world st in
  (Return (clock w (reads w)),
   {| self := self st;
      world := {| files := files w; entropy := entropy w;
                  drawn := drawn w; clock := clock w;
                  reads := S (reads w); trace := trace w |} |}).

(** [path.exists()], [path.read_bytes()], [path.write_bytes(data)] *)
Definition path_exists (p : string) : Py bool := λ st,
  (Return (bool_decide (is_Some (files (world st) !! p))), st).

Definition read_bytes (p : string) : Py bytes := λ st,
  match files (world st) !! p with
  | Some d => (Return d, st)
  | None => (Raise OSError, st)
  end.

Definition store (p : string) (d : bytes) (w : World) : World :=
  {| files := <[p := d]> (files w); entropy := entropy w;
     drawn := drawn w; clock := clock w; reads := reads w;
     trace := trace w ++ [WriteBytes p d] |}.

Definition write_bytes (p : string) (d : bytes) : Py unit :=
  set_world (store p d).

(** A list comprehension [[f(x) for x in l]]: the first exception ends
    it. *)
Fixpoint comprehension {A B} (f : A → Py B) (l : list A) : Py (list B) :=
  match l with
  | [] => ret []
  | x :: r => y <- f x ;; ys <- comprehension f r ;; ret (y :: ys)
  end.

(** ** Python floats

    A [float] is an IEEE 754 binary64 number; a finite one is held as the
    rational it denotes.  An arithmetic operation gives the exact result
    rounded to the nearest such number, ties to even. *)

(** [n / d] rounded to the nearest integer, ties to even, for [0 < d]. *)
Definition round_half_even (n d : Z) : Z :=
  let q := (n / d)%Z in
  match (2 * (n mod d) ?= d)%Z with
  | Lt => q
  | Gt => (q + 1)%Z
  | Eq => if Z.even q then q else (q + 1)%Z
  end.

(** [2 ^ k] for [0 ≤ k], and 1 below. *)
Definition pow2 (k : Z) : Z := (2 ^ Z.max 0 k)%Z.

(** The [k] with [2 ^ k ≤ n / d < 2 ^ (k + 1)], for positive [n] and
    [d]. *)
Definition binade (n d : Z) : Z :=
  let k := (Z.log2 n - Z.log2 d)%Z in
  if (n * pow2 (- k) <? d * pow2 k)%Z then (k - 1)%Z else k.

(** The double nearest to [n / d], for positive [n] and [d]: a
    significand of 53 bits, and a multiple of [2 ^ -1074] below
    [2 ^ -1022]. *)
Definition nearest (n d : Z) : Q :=
  let e := Z.max (binade n d - 52) (-1074) in
  let m := round_half_even (n * pow2 (- e)) (d * pow2 e) in
  Qred (Qmake (m * pow2 e) (Z.to_pos (pow2 (- e)))).

(** The double nearest to a rational.  The largest double is below
    [2 ^ 1024]; a result that is not stands for an overflow. *)
Definition binary64 (q : Q) : Q :=
  let q := Qred q in
  match Qnum q with
  | Z0 => 0%Q
  | Zpos n => nearest (Zpos n) (Zpos (Qden q))
  | Zneg n => (- nearest (Zpos n) (Zpos (Qden q)))%Q
  end.

(** C's [fmod]: the remainder of the division truncated toward zero.  It
    is exact. *)
Definition Qtruncate (x : Q) : Z := Z.quot (Qnum x) (Zpos (Qden x)).

Definition fmod (x y : Q) : Q := (x - y * inject_Z (Qtruncate (x / y)))%Q.

(** [x % y] for two floats, [y] not zero ([float_rem] of CPython): the
    remainder of [fmod], moved by [y] when its sign is not that of
    [y]. *)
Definition float_rem (x y : Q) : Q :=
  let m := fmod x y in
  if Qeq_bool m 0 then 0%Q
  else if xorb (negb (Qle_bool 0 y)) (negb (Qle_bool 0 m))
       then binary64 (m + y)
       else m.

(** ** The program *)

Section Miniauthy.
Context {L : Libs}.
Local Open Scope Z_scope.

Definition FILE_LOCATION : string := home +:+ "/.miniauthy.json.enc".

(** [fernet.Fernet(key)]: the object is its key. *)
Definition Fernet (key : bytes) : Py bytes :=
  if fernet_key_ok key then ret key else raise ValueError.

(** [f.encrypt(data)] reads the clock and draws a 16-byte IV. *)
Definition Fernet_encrypt (f : bytes) (data : bytes) : Py bytes :=
  now <- timestamp ;;
  iv <- os_urandom 16 ;;
  ret (fernet_encrypt f now iv data).

(** [pyotp.parse_uri(totp)] on an item of the decoded payload, which
    need not be a string. *)
Definition parse_item (v : PyVal) : Py pyotp.TOTP :=
  match v with
  | PStr s => lift (parse_uri s)
  | _ => lift (parse_uri_other v)
  end.

(** [TOTPModel._save] *)
Definition _save : Py unit :=
  m <- get_self ;;
  let totps := str_encode (json_dumps (provisioning_uri <$> _totps m)) in
  f <- Fernet (_key m) ;;
  token <- Fernet_encrypt f totps ;;
  write_bytes FILE_LOCATION (_salt m ++ token).

(** The key derivation of [unlock]. *)
Definition derive_key (salt : bytes) (password : string) : bytes :=
  urlsafe_b64encode
    (PBKDF2HMAC_derive pyotp.sha256 32 salt 480000%N
       (str_encode password)).

(** Lines 72-79 of [unlock], once the payload [totps] is known. *)
Definition unlock_install (salt key : bytes) (totps : PyVal) : Py unit :=
  notify BeginResetModel ;;
  items <- lift (py_iter totps) ;;
  parsed <- comprehension parse_item items ;;
  set_self (with_totps parsed) ;;
  notify EndResetModel ;;
  set_self (with_salt_key salt key) ;;
  present <- path_exists FILE_LOCATION ;;
  (if present then ret tt else _save) ;;
  set_self (with_unlocked true) ;;
  emit unlockedChanged.

(** Lines 55-79 of [unlock], once [data] is known. *)
Definition unlock_data (data : bytes) (password : string) : Py unit :=
  let salt := take 16 data in
  let key := derive_key salt password in
  if bool_decide (16 < length data)%nat then
    f <- Fernet key ;;
    match fernet_decrypt f (drop 16 data) with
    | None =>
        set_self (with_failedToLoad true) ;;
        emit failedToLoadChanged
    | Some plain =>
        totps <- lift (json_loads plain) ;;
        unlock_install salt key totps
    end
  else unlock_install salt key (PList []).

(** [TOTPModel.unlock] *)
Definition unlock (password : string) : Py unit :=
  present <- path_exists FILE_LOCATION ;;
  if present then
    data <- read_bytes FILE_LOCATION ;;
    if bool_decide (length data < 16)%nat then ret tt
    else unlock_data data password
  else
    data <- os_urandom 16 ;;
    unlock_data data password.

(** The properties [unlocked], [firstTime], [failedToLoad]. *)
Definition unlocked : Py bool := m <- get_self ;; ret (_unlocked m).

Definition firstTime : Py bool :=
  present <- path_exists FILE_LOCATION ;; ret (negb present).

Definition failedToLoad : Py bool := m <- get_self ;; ret (_failedToLoad m).

(** [TOTPModel.rowCount] *)
Definition rowCount (parent : Qt.QModelIndex) : Py Z :=
  m <- get_self ;;
  ret (if negb (Qt.isValid parent) then Z.of_nat (length (_totps m)) else 0).

(** [totp.now()] *)
Definition now (totp : pyotp.TOTP) : Py string :=
  t <- timestamp ;; lift (TOTP_now totp t).

(** The [try] block of [add]: the new descriptor, or [None] when the
    handler returns -1. *)
Definition add_try (issuer name secret : string) : Py (option pyotp.TOTP) :=
  try_except_ValueError
    (new_totp <- lift (TOTP_new secret issuer name) ;;
     now new_totp ;;
     ret (Some new_totp))
    (ret None).

(** [TOTPModel.add] *)
Definition add (issuer name secret : string) : Py Z :=
  r <- add_try issuer name secret ;;
  match r with
  | None => ret (-1)
  | Some new_totp =>
      m <- get_self ;;
      let n := Z.of_nat (length (_totps m)) in
      notify (BeginInsertRows n n) ;;
      set_self (with_totps (_totps m ++ [new_totp])) ;;
      notify EndInsertRows ;;
      _save ;;
      m' <- get_self ;;
      ret (Z.of_nat (length (_totps m')) - 1)
  end.

(** The string branch of [_recursiveSearch]. *)
Definition candidate (obj : string) : Py (list pyotp.TOTP) :=
  if String.prefix "otpauth://totp" obj then
    try_except_ValueError
      (totp <- lift (parse_uri obj) ;;
       now totp ;;
       ret [totp])
      (ret [])
  else ret [].

(** [_recursiveSearch], with the generator run to its end as
    [list(...)] does: what it yields, in order. *)
Fixpoint _recursiveSearch (obj : PyVal) : Py (list pyotp.TOTP) :=
  match obj with
  | PList items =>
      (fix each (l : list PyVal) : Py (list pyotp.TOTP) :=
         match l with
         | [] => ret []
         | item :: r =>
             a <- _recursiveSearch item ;; b <- each r ;; ret (a ++ b)
         end) items
  | PDict items =>
      (fix each (l : list (string * PyVal)) : Py (list pyotp.TOTP) :=
         match l with
         | [] => ret []
         | (_, item) :: r =>
             a <- _recursiveSearch item ;; b <- each r ;; ret (a ++ b)
         end) items
  | PStr s => candidate s
  | _ => ret []
  end.

(** [TOTPModel.importFromFile], on the local path of the URL. *)
Definition importFromFile (fname : string) : Py unit :=
  raw <- read_bytes fname ;;
  contents <- lift (json_loads raw) ;;
  totps <- _recursiveSearch contents ;;
  match totps with
  | [] => ret tt
  | _ =>
      m <- get_self ;;
      let n := Z.of_nat (length (_totps m)) in
      notify (BeginInsertRows n (n + Z.of_nat (length totps) - 1)) ;;
      set_self (with_totps (_totps m ++ totps)) ;;
      notify EndInsertRows ;;
      _save
  end.

(** [QAbstractItemModel.checkIndex(index, IndexIsValid | ParentIsInvalid)]
    of a list model, whose [columnCount] is 1 at the root. *)
Definition checkIndex (index : Qt.QModelIndex) : Py bool :=
  if negb (Qt.isValid index) then ret false
  else if negb (Qt.own index) then ret false
  else if (Qt.row index <? 0) || (Qt.column index <? 0) then ret false
  else if Qt.parentIsValid index then ret false
  else
    rc <- rowCount Qt.invalid ;;
    ret ((Qt.row index <? rc) && (Qt.column index <? 1)).

(** [l[i]] for a Python list and an int. *)
Definition getitem {A} (l : list A) (i : Z) : Py A :=
  let j := if i <? 0 then i + Z.of_nat (length l) else i in
  if j <? 0 then raise IndexError
  else match l !! Z.to_nat j with
       | Some x => ret x
       | None => raise IndexError
       end.

(** What [data] returns: [None], a string or a descriptor. *)
Inductive PyData :=
| DNone
| DStr (s : string)
| DTotp (t : pyotp.TOTP).

(** Truth value of an optional string. *)
Definition truthy (s : option string) : bool :=
  match s with
  | Some (String _ _) => true
  | _ => false
  end.

(** [TOTPModel.data] *)
Definition data (index : Qt.QModelIndex) (role : Qt.ItemDataRole)
  : Py PyData :=
  ok <- checkIndex index ;;
  if negb ok then ret DNone
  else
    m <- get_self ;;
    match role with
    | Qt.DisplayRole =>
        t <- getitem (_totps m) (Qt.row index) ;;
        if truthy (pyotp.issuer t) then
          if truthy (Some (pyotp.name t)) then
            ret (DStr (default "" (pyotp.issuer t) +:+ " for "
                       +:+ pyotp.name t))
          else ret (DStr (default "" (pyotp.issuer t)))
        else ret (DStr (pyotp.name t))
    | Qt.UserRole =>
        t <- getitem (_totps m) (Qt.row index) ;;
        ret (DTotp t)
    | Qt.OtherRole _ => ret DNone
    end.

(** [QAbstractListModel.index(row, 0)]: a fresh index when [hasIndex],
    the invalid index otherwise. *)
Definition model_index (r c : Z) : Py Qt.QModelIndex :=
  rc <- rowCount Qt.invalid ;;
  ret (if (r <? 0) || (c <? 0) then Qt.invalid
       else if (r <? rc) && (c <? 1) then Qt.createIndex r c
       else Qt.invalid).

(** [QModelIndex.data(role)]: asks the model if the index is valid. *)
Definition index_data (index : Qt.QModelIndex) (role : Qt.ItemDataRole)
  : Py PyData :=
  if Qt.isValid index then data index role else ret DNone.

(** The fields of a [TOTP] helper object.  There is one model, so the
    reference [_model] is either unset or that model. *)
Record TOTP := {
  _model : option unit;
  _index : Z;
  _code_idx : Q;
  _timer : bool
}.

(** [TOTP.__init__] *)
Definition TOTP_init : TOTP :=
  {| _model := None; _index := -1; _code_idx := 0; _timer := false |}.

(** [float(n)] for an int, as an operation on a float and an int
    converts it: the nearest double, and [OverflowError] when there is
    none. *)
Definition float_of_int (n : Z) : Py Q :=
  let x := binary64 (inject_Z n) in
  if Qle_bool (inject_Z (2 ^ 1024)) x || Qle_bool x (inject_Z (- 2 ^ 1024))
  then raise OverflowError
  else ret x.

(** [a % b] for a float and an int. *)
Definition float_mod (a : Q) (b : Z) : Py Q :=
  w <- float_of_int b ;;
  if Qeq_bool w 0 then raise ZeroDivisionError
  else ret (float_rem a w).

(** [TOTP.timeLeft] *)
Definition timeLeft (this : TOTP) : Py Q :=
  if bool_decide (_model this = None) || (_index this =? -1) then ret 0%Q
  else
    ix <- model_index (_index this) 0 ;;
    d <- index_data ix Qt.UserRole ;;
    match d with
    | DTotp totp =>
        t <- timestamp ;;
        r <- float_mod t (pyotp.interval totp) ;;
        p <- float_of_int (pyotp.interval totp) ;;
        ret (binary64 (p - r))
    | _ => raise AttributeError
    end.

End Miniauthy.

(** ** Base32 secrets

    Which secrets [pyotp] can decode: [byte_secret] pads the secret with
    [=] to a multiple of eight characters and hands it to
    [base64.b32decode(casefold=True)], which strips the padding at the
    end, wants every other character to be a base32 digit, and wants 0,
    1, 3, 4 or 6 characters of padding.  The empty string decodes, to no
    bytes. *)

Definition b32_digit (c : ascii) : bool :=
  let n := N_of_ascii c in
  ((65 <=? n) && (n <=? 90) || (97 <=? n) && (n <=? 122)
   || (50 <=? n) && (n <=? 55))%N.

(** The list without the [=] at its head. *)
Fixpoint drop_pad (l : list ascii) : list ascii :=
  match l with
  | c :: r => if Ascii.eqb c "=" then drop_pad r else l
  | [] => []
  end.

Definition b32_valid (secret : string) : bool :=
  let cs := list_ascii_of_string secret in
  let padded := (length cs + (8 - length cs mod 8) mod 8)%nat in
  let body := rev (drop_pad (rev cs)) in
  let padchars := (padded - length body)%nat in
  forallb b32_digit body
  && bool_decide (padchars ∈ [0; 1; 3; 4; 6]%nat).

(** ** Contracts of the libraries

    Each is a proposition about the interface; a theorem that needs one
    takes it as a hypothesis. *)

Section Contracts.
Context {L : Libs}.

(** The key [unlock] derives is one [Fernet] accepts: 32 bytes, url-safe
    base64 encoded. *)
Definition kdf_yields_fernet_key : Prop :=
  ∀ salt password, fernet_key_ok (derive_key salt password) = true.

(** Decrypting a token under the key that made it gives the plaintext. *)
Definition fernet_round_trip : Prop :=
  ∀ k t iv p,
    fernet_key_ok k = true →
    fernet_decrypt k (fernet_encrypt k t iv p) = Some p.

(** A token is never the empty byte string. *)
Definition fernet_token_nonempty : Prop :=
  ∀ k t iv p, fernet_encrypt k t iv p ≠ [].

(** [json.loads] undoes [json.dumps] on this list of strings. *)
Definition json_round_trip (uris : list string) : Prop :=
  json_loads (str_encode (json_dumps uris)) = Return (PList (PStr <$> uris)).

(** [parse_uri] accepts the URI of this descriptor, and what it builds
    has the same URI. *)
Definition uri_round_trip (t : pyotp.TOTP) : Prop :=
  ∃ t', parse_uri (provisioning_uri t) = Return t'
        ∧ provisioning_uri t' = provisioning_uri t.

(** A result that is a value or a [ValueError]. *)
Definition only_ValueError {A} (r : result A) : Prop :=
  match r with
  | Return _ => True
  | Raise e => e = ValueError
  end.

(** Parsing and validating this string raises nothing but
    [ValueError], whatever the time. *)
Definition benign (s : string) : Prop :=
  only_ValueError (parse_uri s)
  ∧ ∀ t q, parse_uri s = Return t → only_ValueError (TOTP_now t q).

(** A string the walk of an import takes for a URI. *)
Definition matching (s : string) : Prop :=
  String.prefix "otpauth://totp" s = true.
End Contracts.

(** ** Vocabulary of the properties *)

Section Vocabulary.
Context {L : Libs}.
Local Open Scope Z_scope.

(** *** Vault files and the states [unlock] leaves *)

Fixpoint parse_items (l : list PyVal) : result (list pyotp.TOTP) :=
  match l with
  | [] => Return []
  | PStr s :: r =>
      match parse_uri s with
      | Return t =>
          match parse_items r with
          | Return ts => Return (t :: ts)
          | Raise e => Raise e
          end
      | Raise e => Raise e
      end
  | v :: r =>
      match parse_uri_other v with
      | Return t =>
          match parse_items r with
          | Return ts => Return (t :: ts)
          | Raise e => Raise e
          end
      | Raise e => Raise e
      end
  end.

(** The vault [data] opens under [password] to the descriptors
    [totps]. *)
Definition opens (password : string) (data : bytes)
    (totps : list pyotp.TOTP) : Prop :=
  (16 < length data)%nat
  ∧ ∃ plain v items,
      fernet_decrypt (derive_key (take 16 data) password) (drop 16 data)
        = Some plain
      ∧ json_loads plain = Return v
      ∧ py_iter v = Return items
      ∧ parse_items items = Return totps.

(** The key of the store is the one [unlock] derives from [password] and
    its 16-byte salt. *)
Definition keyed (password : string) (m : TOTPModel) : Prop :=
  length (_salt m) = 16%nat ∧ _key m = derive_key (_salt m) password.

(** The state a successful [unlock] of an existing vault leaves. *)
Definition unlocked_state (password : string) (data : bytes)
    (totps : list pyotp.TOTP) (st : State) : State :=
  {| self := {| _totps := totps;
                _salt := take 16 data;
                _key := derive_key (take 16 data) password;
                _unlocked := true;
                _failedToLoad := _failedToLoad (self st) |};
     world := log (Emit unlockedChanged)
                (log EndResetModel (log BeginResetModel (world st))) |}.

(** The state a failed decryption leaves: the flag is set and the
    signal emitted. *)
Definition failed_state (st : State) : State :=
  {| self := with_failedToLoad true (self st);
     world := log (Emit failedToLoadChanged) (world st) |}.

(** The state [unlock] leaves when the payload is taken to be the empty
    list and the vault file exists. *)
Definition reset_state (salt key : bytes) (st : State) : State :=
  {| self := {| _totps := []; _salt := salt; _key := key;
                _unlocked := true;
                _failedToLoad := _failedToLoad (self st) |};
     world := log (Emit unlockedChanged)
                (log EndResetModel (log BeginResetModel (world st))) |}.

(** The world once [Fernet.encrypt] has read the clock and drawn its
    IV. *)
Definition ticked (w : World) : World :=
  {| files := files w; entropy := entropy w;
     drawn := (drawn w + 16)%nat; clock := clock w;
     reads := S (reads w); trace := trace w |}.

Definition vault_token (st : State) : bytes :=
  fernet_encrypt (_key (self st))
    (clock (world st) (reads (world st)))
    (entropy (world st) <$> seq (drawn (world st)) 16)
    (str_encode (json_dumps (provisioning_uri <$> _totps (self st)))).

Definition vault_bytes (st : State) : bytes :=
  _salt (self st) ++ vault_token st.

Definition saved (st : State) : State :=
  {| self := self st;
     world := store FILE_LOCATION (vault_bytes st) (ticked (world st)) |}.

(** The state the first [unlock] leaves when there is no vault file. *)
Definition first_state (password : string) (st : State) : State :=
  let w := world st in
  let salt := entropy w <$> seq (drawn w) 16 in
  let key := derive_key salt password in
  let w1 :=
    {| files := files w; entropy := entropy w;
       drawn := (drawn w + 16)%nat; clock := clock w; reads := reads w;
       trace := (trace w ++ [BeginResetModel]) ++ [EndResetModel] |} in
  let m := {| _totps := []; _salt := salt; _key := key;
              _unlocked := _unlocked (self st);
              _failedToLoad := _failedToLoad (self st) |} in
  let st2 := saved {| self := m; world := w1 |} in
  {| self := with_unlocked true (self st2);
     world := log (Emit unlockedChanged) (world st2) |}.

(** *** The walk of [importFromFile] *)

(** The strings of a document in depth-first order: the items of a list
    in sequence, the values of a dict in their order. *)
Fixpoint strings (v : PyVal) : list string :=
  match v with
  | PStr s => [s]
  | PList items => concat (List.map strings items)
  | PDict items => concat (List.map (λ kv, strings kv.2) items)
  | _ => []
  end.

(** The walk over a flat list of strings. *)
Fixpoint scan (l : list string) : Py (list pyotp.TOTP) :=
  match l with
  | [] => ret []
  | s :: r => a <- candidate s ;; b <- scan r ;; ret (a ++ b)
  end.

(** The descriptors an import is to keep: of the strings that begin with
    the prefix, those that parse and for which a code is generated at the
    clock reading then taken, in order.  [n] counts the readings. *)
Fixpoint kept (clk : nat → Q) (n : nat) (l : list string)
  : list pyotp.TOTP :=
  match l with
  | [] => []
  | s :: r =>
      if String.prefix "otpauth://totp" s then
        match parse_uri s with
        | Return t =>
            match TOTP_now t (clk n) with
            | Return _ => t :: kept clk (S n) r
            | Raise _ => kept clk (S n) r
            end
        | Raise _ => kept clk n r
        end
      else kept clk n r
  end.

(** How many clock readings the walk takes: one per string that begins
    with the prefix and parses. *)
Fixpoint readings (l : list string) : nat :=
  match l with
  | [] => 0
  | s :: r =>
      if String.prefix "otpauth://totp" s then
        match parse_uri s with
        | Return _ => S (readings r)
        | Raise _ => readings r
        end
      else readings r
  end.

(** The world after [n] more clock readings. *)
Definition later (n : nat) (w : World) : World :=
  {| files := files w; entropy := entropy w; drawn := drawn w;
     clock := clock w; reads := (reads w + n)%nat; trace := trace w |}.

(** *** Adding and importing *)

(** Construction followed by the generation of one code at time [q]. *)
Definition validated (secret issuer name : string) (q : Q)
  : result pyotp.TOTP :=
  match TOTP_new secret issuer name with
  | Return t =>
      match TOTP_now t q with
      | Return _ => Return t
      | Raise e => Raise e
      end
  | Raise e => Raise e
  end.


(** The state once [add] has appended [t], before it saves. *)
Definition appended (t : pyotp.TOTP) (st : State) : State :=
  let n := Z.of_nat (length (_totps (self st))) in
  {| self := with_totps (_totps (self st) ++ [t]) (self st);
     world := log EndInsertRows
                (log (BeginInsertRows n n) (later 1 (world st))) |}.

(** The state once [importFromFile] has appended [found], before it
    saves; [k] clock readings were taken by the walk. *)
Definition extended (found : list pyotp.TOTP) (k : nat) (st : State)
  : State :=
  let n := Z.of_nat (length (_totps (self st))) in
  {| self := with_totps (_totps (self st) ++ found) (self st);
     world := log EndInsertRows
                (log (BeginInsertRows n (n + Z.of_nat (length found) - 1))
                   (later k (world st))) |}.

(** *** Sequences of operations *)

(** The operations a user can trigger.  A slot that raises leaves the
    state the exception left, and the event loop goes on. *)
Inductive Op :=
| Unlock (password : string)
| Add (issuer name secret : string)
| ImportFromFile (fname : string).

Definition step (o : Op) (st : State) : State :=
  match o with
  | Unlock password => (unlock password st).2
  | Add issuer name secret => (add issuer name secret st).2
  | ImportFromFile fname => (importFromFile fname st).2
  end.

Fixpoint run (ops : list Op) (st : State) : State :=
  match ops with
  | [] => st
  | o :: r => run r (step o st)
  end.

(** A relation between the model object before and after holds across
    a program, however it ends. *)
Definition preserves (R : TOTPModel → TOTPModel → Prop) {A} (m : Py A)
  : Prop :=
  ∀ st, R (self st) (self (m st).2).


(** Salt and key are the same. *)
Definition same_keys (m m' : TOTPModel) : Prop :=
  _salt m' = _salt m ∧ _key m' = _key m.

(** *** The list-model interface and the helper object *)

(** A string that is there: not [None] and not empty. *)
Definition present (s : option string) : bool :=
  match s with
  | None | Some EmptyString => false
  | Some _ => true
  end.

(** The display label as the interface describes it. *)
Definition display_label (t : pyotp.TOTP) : string :=
  match present (pyotp.issuer t), present (Some (pyotp.name t)) with
  | true, true => default "" (pyotp.issuer t) +:+ " for " +:+ pyotp.name t
  | true, false => default "" (pyotp.issuer t)
  | false, true => pyotp.name t
  | false, false => ""
  end.

(** An index is a row of the collection. *)
Definition in_range (index : Qt.QModelIndex) (st : State) : Prop :=
  Qt.isValid index = true
  ∧ Qt.own index = true
  ∧ Qt.parentIsValid index = false
  ∧ Qt.column index = 0
  ∧ 0 ≤ Qt.row index < Z.of_nat (length (_totps (self st))).

(** [t mod p] on rationals, with the sign of the divisor. *)
Definition Qmod (t p : Q) : Q := (t - p * inject_Z (Qfloor (t / p)))%Q.

End Vocabulary.

(** ** The other members of the [TOTP] helper

    [timeLeft] is above; here are the two property setters, the three
    other read-only properties and the timer slot.  The timer is its
    running state, [_timer]. *)

Module Helper.
Section Members.
Context {L : Libs}.
Local Open Scope Z_scope.

Definition with_model (model : option unit) (this : TOTP) : TOTP :=
  {| _model := model; _index := _index this;
     _code_idx := _code_idx this; _timer := _timer this |}.

Definition with_index (index : Z) (this : TOTP) : TOTP :=
  {| _model := _model this; _index := index;
     _code_idx := _code_idx this; _timer := _timer this |}.

Definition with_code_idx (code_idx : Q) (this : TOTP) : TOTP :=
  {| _model := _model this; _index := _index this;
     _code_idx := code_idx; _timer := _timer this |}.

Definition with_timer (running : bool) (this : TOTP) : TOTP :=
  {| _model := _model this; _index := _index this;
     _code_idx := _code_idx this; _timer := running |}.

(** The guard [self._model is None or self._index == -1]. *)
Definition unbound (this : TOTP) : bool :=
  bool_decide (_model this = None) || (_index this =? -1).

(** The last four lines of either setter: [_timer.start()] if the model
    is set and the index is not -1, [_timer.stop()] otherwise. *)
Definition retime (this : TOTP) : TOTP :=
  if bool_decide (_model this ≠ None) && negb (_index this =? -1)
  then with_timer true this
  else with_timer false this.

(** The setter of [model] *)
Definition model_setter (this : TOTP) (model : option unit) : Py TOTP :=
  let this := with_model model this in
  emit modelChanged ;;
  emit currentCodeChanged ;;
  emit timeLeftChanged ;;
  ret (retime this).

(** The setter of [index] *)
Definition index_setter (this : TOTP) (index : Z) : Py TOTP :=
  let this := with_index index this in
  emit indexChanged ;;
  emit currentCodeChanged ;;
  emit timeLeftChanged ;;
  ret (retime this).

(** [self._model.index(self._index, 0).data(role)] *)
Definition row_data (this : TOTP) (role : Qt.ItemDataRole) : Py PyData :=
  ix <- model_index (_index this) 0 ;;
  index_data ix role.

(** [TOTP.timeInterval] *)
Definition timeInterval (this : TOTP) : Py Q :=
  if unbound this then ret 0%Q
  else
    d <- row_data this Qt.UserRole ;;
    match d with
    | DTotp totp => ret (inject_Z (pyotp.interval totp))
    | _ => raise AttributeError
    end.

(** [TOTP.name]: what [data] gives for [DisplayRole], a string or
    [None]. *)
Definition name (this : TOTP) : Py PyData :=
  if unbound this then ret (DStr "")
  else row_data this Qt.DisplayRole.

(** [TOTP.currentCode] *)
Definition currentCode (this : TOTP) : Py string :=
  if unbound this then ret ""%string
  else
    d <- row_data this Qt.UserRole ;;
    match d with
    | DTotp totp => now totp
    | _ => raise AttributeError
    end.

(** [TOTP._update].  It has no guard: on an unset model the first
    attribute access fails.  In [now % totp.interval] the clock is read
    before [totp.interval] is looked up. *)
Definition _update (this : TOTP) : Py TOTP :=
  emit timeLeftChanged ;;
  match _model this with
  | None => raise AttributeError
  | Some _ =>
      d <- row_data this Qt.UserRole ;;
      t <- timestamp ;;
      match d with
      | DTotp totp =>
          code_idx <- float_mod t (pyotp.interval totp) ;;
          if Qeq_bool code_idx (_code_idx this) then ret this
          else
            emit currentCodeChanged ;;
            ret (with_code_idx code_idx this)
      | _ => raise AttributeError
      end
  end.

End Members.
End Helper.

(** ** Further vocabulary *)

Section Persistence.
Context {L : Libs}.
Local Open Scope Z_scope.

(** The vault file is the salt of the store followed by a token, made
    under its key, of the JSON list of the URIs of its collection. *)
Definition synced (st : State) : Prop :=
  ∃ t iv,
    files (world st) !! FILE_LOCATION
    = Some (_salt (self st)
            ++ fernet_encrypt (_key (self st)) t iv
                 (str_encode
                    (json_dumps (provisioning_uri <$> _totps (self st))))).

(** The model object is the same but for its collection, which has
    grown at the end. *)
Definition grown (m m' : TOTPModel) : Prop :=
  (∃ more, _totps m' = _totps m ++ more)
  ∧ _salt m' = _salt m
  ∧ _key m' = _key m
  ∧ _unlocked m' = _unlocked m
  ∧ _failedToLoad m' = _failedToLoad m.

(** The world is the same but for clock readings taken. *)
Definition only_time_passed (w w' : World) : Prop :=
  files w' = files w
  ∧ entropy w' = entropy w
  ∧ drawn w' = drawn w
  ∧ clock w' = clock w
  ∧ trace w' = trace w.

(** A new process in the world of [st]. *)
Definition reopened (st : State) : State :=
  {| self := TOTPModel_init; world := world st |}.

(** The items of a decrypted payload, parsed as [unlock] parses them. *)
Definition payload_items (v : PyVal) : result (list pyotp.TOTP) :=
  match py_iter v with
  | Return items => parse_items items
  | Raise e => Raise e
  end.


(** The state with one more clock reading taken. *)
Definition tick (st : State) : State :=
  {| self := self st; world := later 1 (world st) |}.

(** The state once [importFromFile] has appended [found] to the state
    [st1] the walk left, before it saves. *)
Definition imported (found : list pyotp.TOTP) (st1 : State) : State :=
  let n := Z.of_nat (length (_totps (self st1))) in
  {| self := with_totps (_totps (self st1) ++ found) (self st1);
     world := log EndInsertRows
                (log (BeginInsertRows n (n + Z.of_nat (length found) - 1))
                   (world st1)) |}.

(** What [index(row, 0).data(UserRole)] should be: the descriptor of the
    row, or [None] when there is no such row. *)
Definition row_descriptor (st : State) (r : Z) : PyData :=
  if r <? 0 then DNone
  else match _totps (self st) !! Z.to_nat r with
       | Some d => DTotp d
       | None => DNone
       end.

(** The same for [DisplayRole]: the label of the row, or [None]. *)
Definition row_label (st : State) (r : Z) : PyData :=
  match row_descriptor st r with
  | DTotp d => DStr (display_label d)
  | _ => DNone
  end.

(** The timer of a helper runs exactly when the helper is bound. *)
Definition timer_ok (this : TOTP) : Prop :=
  _timer this = true ↔ _model this ≠ None ∧ _index this ≠ -1.

End Persistence.

(** ** A reference instance of the libraries

    A small executable stand-in for the packages, with no cryptographic
    strength: a key is the padded head of password and salt, a token is a
    version byte followed by the key and the plaintext, JSON is a
    line-based prefix syntax, and a URI carries the account name, the
    secret and possibly the period.  It shows that the contracts above can be met together,
    and lets the program be run on concrete states. *)

Module Reference.

#[local] Instance byte_eq_dec : EqDecision byte := Byte.byte_eq_dec.

Fixpoint strip_prefix (p s : string) : option string :=
  match p, s with
  | EmptyString, _ => Some s
  | String a p', String b s' =>
      if Ascii.eqb a b then strip_prefix p' s' else None
  | String _ _, EmptyString => None
  end.

Fixpoint split_at (c : ascii) (s : string) : option (string * string) :=
  match s with
  | EmptyString => None
  | String a r =>
      if Ascii.eqb a c then Some (EmptyString, r)
      else match split_at c r with
           | Some (x, y) => Some (String a x, y)
           | None => None
           end
  end.

Definition newline : ascii := "010"%char.

(** The text of a value: [N], [S] and a line, [L] items [E], [D] then
    key lines and values, then [E]. *)
Fixpoint json_text (v : PyVal) : string :=
  match v with
  | PStr s => String "S" (s +:+ String newline EmptyString)
  | PList items =>
      String "L"
        ((fix each (l : list PyVal) : string :=
            match l with
            | [] => "E"
            | x :: r => json_text x +:+ each r
            end) items)
  | PDict items =>
      String "D"
        ((fix each (l : list (string * PyVal)) : string :=
            match l with
            | [] => "E"
            | (k, x) :: r =>
                k +:+ String newline EmptyString +:+ json_text x +:+ each r
            end) items)
  | _ => "N"
  end.

Fixpoint json_value (fuel : nat) (s : string) : option (PyVal * string) :=
  match fuel, s with
  | S fuel, String c r =>
      if Ascii.eqb c "N" then Some (PNone, r)
      else if Ascii.eqb c "S" then
        match split_at newline r with
        | Some (x, r') => Some (PStr x, r')
        | None => None
        end
      else if Ascii.eqb c "L" then
        match json_list fuel r with
        | Some (xs, r') => Some (PList xs, r')
        | None => None
        end
      else if Ascii.eqb c "D" then
        match json_pairs fuel r with
        | Some (kvs, r') => Some (PDict kvs, r')
        | None => None
        end
      else None
  | _, _ => None
  end
with json_list (fuel : nat) (s : string) : option (list PyVal * string) :=
  match fuel, s with
  | S fuel, String c r =>
      if Ascii.eqb c "E" then Some ([], r)
      else match json_value fuel s with
           | Some (x, r1) =>
               match json_list fuel r1 with
               | Some (xs, r2) => Some (x :: xs, r2)
               | None => None
               end
           | None => None
           end
  | _, _ => None
  end
with json_pairs (fuel : nat) (s : string)
  : option (list (string * PyVal) * string) :=
  match fuel, s with
  | S fuel, String c r =>
      if Ascii.eqb c "E" then Some ([], r)
      else match split_at newline s with
           | Some (k, r0) =>
               match json_value fuel r0 with
               | Some (x, r1) =>
                   match json_pairs fuel r1 with
                   | Some (kvs, r2) => Some ((k, x) :: kvs, r2)
                   | None => None
                   end
               | None => None
               end
           | None => None
           end
  | _, _ => None
  end.

Definition descriptor (secret name : string) (issuer : option string)
  : pyotp.TOTP :=
  {| pyotp.secret := secret; pyotp.digits := 6; pyotp.digest := pyotp.sha1;
     pyotp.name := match name with EmptyString => "Secret" | _ => name end;
     pyotp.issuer := issuer; pyotp.interval := 30 |}.

Definition with_period (p : Z) (t : pyotp.TOTP) : pyotp.TOTP :=
  {| pyotp.secret := pyotp.secret t; pyotp.digits := pyotp.digits t;
     pyotp.digest := pyotp.digest t; pyotp.name := pyotp.name t;
     pyotp.issuer := pyotp.issuer t; pyotp.interval := p |}.

(** A run of decimal digits as a number. *)
Fixpoint decimal (acc : Z) (s : string) : option Z :=
  match s with
  | EmptyString => Some acc
  | String c r =>
      let n := N_of_ascii c in
      if ((48 <=? n) && (n <=? 57))%N
      then decimal (10 * acc + Z.of_N (n - 48)) r
      else None
  end.

(** The code of a descriptor: the period divides the time, then the
    secret is decoded. *)
Definition code (t : pyotp.TOTP) : result string :=
  if (pyotp.interval t =? 0)%Z then Raise ZeroDivisionError
  else if b32_valid (pyotp.secret t) then Return "000000"
  else Raise ValueError.

Definition decrypt (k token : bytes) : option bytes :=
  match token with
  | x80 :: r =>
      if decide (take (length k) r = k) then Some (drop (length k) r)
      else None
  | _ => None
  end.

(** A URI is [otpauth://totp/], the account name, [?secret=] and the
    secret, which must not be blank, and then possibly [&period=] and a
    number. *)
Definition parse_query (label query : string) : result pyotp.TOTP :=
  match split_at "&" query with
  | None =>
      match query with
      | EmptyString => Raise ValueError
      | _ => Return (descriptor query label None)
      end
  | Some (EmptyString, _) => Raise ValueError
  | Some (secret, more) =>
      match strip_prefix "period=" more with
      | Some digits =>
          match decimal 0 digits with
          | Some p => Return (with_period p (descriptor secret label None))
          | None => Raise ValueError
          end
      | None => Raise ValueError
      end
  end.

Definition parse (uri : string) : result pyotp.TOTP :=
  match strip_prefix "otpauth://totp/" uri with
  | Some rest =>
      match split_at "?" rest with
      | Some (label, query) =>
          match strip_prefix "secret=" query with
          | Some q => parse_query label q
          | None => Raise ValueError
          end
      | None => Raise ValueError
      end
  | None => Raise ValueError
  end.

(** [urllib.parse.urlparse] on a value that is not a string: a false
    value is read as the empty URI, on any other the call of [decode]
    fails. *)
Definition parse_other (v : PyVal) : result pyotp.TOTP :=
  match v with
  | PNone | PBool false | PList [] | PDict [] => Raise ValueError
  | PInt n => if (n =? 0)%Z then Raise ValueError else Raise AttributeError
  | PFloat q => if Qeq_bool q 0 then Raise ValueError else Raise AttributeError
  | _ => Raise AttributeError
  end.

Definition libs : Libs :=
  {| home := "/home/user";
     PBKDF2HMAC_derive _ len salt _ key_material :=
       take len (key_material ++ salt ++ repeat x00 len);
     urlsafe_b64encode b := b ++ repeat x3d 12;
     fernet_key_ok k := (length k =? 44)%nat;
     fernet_encrypt k _ _ p := x80 :: k ++ p;
     fernet_decrypt := decrypt;
     json_dumps l := json_text (PList (PStr <$> l));
     json_loads b :=
       match json_value (S (length b)) (string_of_list_byte b) with
       | Some (v, EmptyString) => Return v
       | _ => Raise ValueError
       end;
     TOTP_new secret issuer name :=
       Return (descriptor secret name (Some issuer));
     TOTP_now t _ := code t;
     parse_uri := parse;
     parse_uri_other := parse_other;
     provisioning_uri t :=
       "otpauth://totp/" +:+ pyotp.name t +:+ "?secret=" +:+ pyotp.secret t
  |}.

#[local] Existing Instance libs.

(** *** Concrete states *)

Definition world0 : World :=
  {| files := ∅; entropy := λ _, x2a; drawn := 0;
     clock := λ n, (inject_Z 1700000000 + inject_Z (Z.of_nat n))%Q;
     reads := 0; trace := [] |}.

(** A new process with no vault file. *)
Definition fresh : State := {| self := TOTPModel_init; world := world0 |}.

(** The same after a first [unlock], and after one [add]. *)
Definition opened : State := (unlock "hunter2" fresh).2.

Definition filled : State :=
  (add "ACME" "alice" "JBSWY3DPEHPK3PXP" opened).2.

(** A new process in the same world. *)
Definition restart (st : State) : State :=
  {| self := TOTPModel_init; world := world st |}.

(** A file put in place from outside. *)
Definition put_file (p : string) (d : bytes) (st : State) : State :=
  let w := world st in
  {| self := self st;
     world := {| files := <[p := d]> (files w); entropy := entropy w;
                 drawn := drawn w; clock := clock w; reads := reads w;
                 trace := trace w |} |}.

Definition alice : pyotp.TOTP :=
  descriptor "JBSWY3DPEHPK3PXP" "alice" (Some "ACME").

Definition vault : bytes :=
  default [] (files (world filled) !! FILE_LOCATION).

Definition export : PyVal :=
  PDict
    [("accounts",
      PList
        [PStr "otpauth://totp/alice?secret=JBSWY3DPEHPK3PXP";
         PDict [("uri", PStr "otpauth://totp/dave?secret=not-base32!");
                ("note", PStr "hello")];
         PList [PStr "otpauth://totp/bob?secret=GEZDGNBVGY3TQOJQ"; PNone]]);
     ("backup",
      PDict [("old", PStr "otpauth://totp/erin");
             ("new", PStr "otpauth://totp/carol?secret=MFRGGZDFMZTWQ2LK")])].

Definition export_path : string := "/home/user/export.json".


(** A helper object bound to row 0. *)
Definition bound : TOTP :=
  {| _model := Some tt; _index := 0; _code_idx := 0; _timer := true |}.

(** *** More concrete states *)

(** A vault whose token opens under "hunter2" but holds [plain]. *)
Definition vault_holding (plain : bytes) : State :=
  let salt := repeat x2a 16 in
  put_file FILE_LOCATION
    (salt ++ fernet_encrypt (derive_key salt "hunter2") 0 [] plain) fresh.

Definition not_json : bytes := str_encode "oops".

Definition not_uris : PyVal := PList [PStr "hello"].

Definition not_strings : PyVal := PList [PDict [("uri", PNone)]].

(** A helper bound to a row that does not exist. *)
Definition stray : TOTP :=
  {| _model := Some tt; _index := 5; _code_idx := 0; _timer := true |}.

(** The strings of [export] in a flat list. *)
Definition export_flat : PyVal := PList (PStr <$> strings export).

(** The descriptor [add] builds from the empty secret. *)
Definition blank : pyotp.TOTP := descriptor "" "alice" (Some "ACME").


(** An unlocked store holding one descriptor of period [p], at a moment
    when the clock reads [t]. *)
Definition showing (p : Z) (t : Q) : State :=
  {| self := with_totps [with_period p alice] (self opened);
     world := {| files := ∅; entropy := λ _, x2a; drawn := 0;
                 clock := λ _, t; reads := 0; trace := [] |} |}.

End Reference.

(** ** Properties of the vault *)

Section Vault.
Context {L : Libs}.
Local Open Scope Z_scope.

(** *** Unlocking *)

Lemma comprehension_parse_item l st :
  comprehension parse_item l st = (parse_items l, st).
Proof.
  revert st. induction l as [|v r IH]; intros st; [done|].
  cbn [comprehension parse_items]. unfold bind at 1.
  destruct v; cbn [parse_item]; unfold lift at 1;
    match goal with
    | |- context [match ?r with Return _ => _ | Raise _ => _ end] =>
        destruct r as [t|e]; [|done]
    end;
    unfold bind; rewrite IH; by destruct (parse_items r).
Qed.

Lemma path_exists_Some st p (d : bytes) :
  files (world st) !! p = Some d → path_exists p st = (Return true, st).
Proof.
  intros H. unfold path_exists. f_equal. f_equal.
  apply bool_decide_eq_true. by rewrite H.
Qed.

Lemma path_exists_None st p :
  files (world st) !! p = None → path_exists p st = (Return false, st).
Proof.
  intros H. unfold path_exists. f_equal. f_equal.
  apply bool_decide_eq_false. rewrite H. by intros [? ?].
Qed.

Lemma _save_ok st :
  fernet_key_ok (_key (self st)) = true →
  _save st = (Return tt, saved st).
Proof.
  intros Hk. unfold _save, bind at 1, get_self at 1.
  unfold bind at 1, Fernet. rewrite Hk. reflexivity.
Qed.

Lemma _save_bad_key st :
  fernet_key_ok (_key (self st)) = false →
  _save st = (Raise ValueError, st).
Proof.
  intros Hk. unfold _save, bind at 1, get_self at 1.
  unfold bind at 1, Fernet. rewrite Hk. reflexivity.
Qed.

Lemma unlock_opens st password (data : bytes) totps :
  kdf_yields_fernet_key →
  files (world st) !! FILE_LOCATION = Some data →
  opens password data totps →
  unlock password st = (Return tt, unlocked_state password data totps st).
Proof.
  intros Hkey Hfile [Hlen (plain & v & items & Hdec & Hjson & Hiter & Hparse)].
  unfold unlock, bind at 1. rewrite (path_exists_Some _ _ _ Hfile).
  unfold bind at 1, read_bytes. rewrite Hfile.
  rewrite bool_decide_eq_false_2 by lia.
  unfold unlock_data. rewrite bool_decide_eq_true_2 by lia.
  unfold bind at 1, Fernet. rewrite Hkey. unfold ret at 1.
  rewrite Hdec. unfold bind at 1, lift at 1. rewrite Hjson.
  unfold unlock_install.
  unfold bind at 1, notify at 1, set_world at 1.
  unfold bind at 1, lift at 1. rewrite Hiter.
  unfold bind at 1. rewrite comprehension_parse_item, Hparse.
  unfold bind at 1, set_self at 1.
  unfold bind at 1, notify at 1, set_world at 1.
  unfold bind at 1, set_self at 1.
  unfold bind at 1.
  erewrite path_exists_Some by (cbn; exact Hfile).
  reflexivity.
Qed.

(** C5.  If the vault file exists and is shorter than 16 bytes, [unlock]
    returns normally and leaves the whole state as it was: the flags,
    the collection, salt and key, the files and the trace of events. *)
Theorem unlock_short_file_noop st password (data : bytes) :
  files (world st) !! FILE_LOCATION = Some data →
  (length data < 16)%nat →
  unlock password st = (Return tt, st).
Proof.
  intros Hfile Hlen.
  unfold unlock, bind at 1. rewrite (path_exists_Some _ _ _ Hfile).
  unfold bind at 1, read_bytes. rewrite Hfile.
  by rewrite bool_decide_eq_true_2.
Qed.

Lemma unlock_not_authentic st password (data : bytes) :
  kdf_yields_fernet_key →
  files (world st) !! FILE_LOCATION = Some data →
  (16 < length data)%nat →
  fernet_decrypt (derive_key (take 16 data) password) (drop 16 data) = None →
  unlock password st = (Return tt, failed_state st).
Proof.
  intros Hkey Hfile Hlen Hdec.
  unfold unlock, bind at 1. rewrite (path_exists_Some _ _ _ Hfile).
  unfold bind at 1, read_bytes. rewrite Hfile.
  rewrite bool_decide_eq_false_2 by lia.
  unfold unlock_data. rewrite bool_decide_eq_true_2 by lia.
  unfold bind at 1, Fernet. rewrite Hkey. unfold ret at 1.
  by rewrite Hdec.
Qed.

(** C3, amended.  If the vault file is longer than 16 bytes and its
    ciphertext does not authenticate under the key derived from the
    password, [unlock] sets [failedToLoad], emits its signal and changes
    nothing else: collection, salt, key and [unlocked] are as before and
    no file is written. *)
Theorem unlock_wrong_password st password (data : bytes) :
  kdf_yields_fernet_key →
  files (world st) !! FILE_LOCATION = Some data →
  (16 < length data)%nat →
  fernet_decrypt (derive_key (take 16 data) password) (drop 16 data) = None →
  ∃ st',
    unlock password st = (Return tt, st')
    ∧ _failedToLoad (self st') = true
    ∧ _totps (self st') = _totps (self st)
    ∧ _salt (self st') = _salt (self st)
    ∧ _key (self st') = _key (self st)
    ∧ _unlocked (self st') = _unlocked (self st)
    ∧ files (world st') = files (world st)
    ∧ trace (world st') = trace (world st) ++ [Emit failedToLoadChanged].
Proof.
  intros Hkey Hfile Hlen Hdec. exists (failed_state st).
  split; [by apply unlock_not_authentic with (data := data)|done].
Qed.

(** A vault file of exactly 16 bytes is a salt with no ciphertext:
    [unlock] does not decrypt at all, empties the collection and
    unlocks. *)
Lemma unlock_salt_only st password (data : bytes) :
  files (world st) !! FILE_LOCATION = Some data →
  length data = 16%nat →
  unlock password st
  = (Return tt, reset_state data (derive_key data password) st).
Proof.
  intros Hfile Hlen.
  unfold unlock, bind at 1. rewrite (path_exists_Some _ _ _ Hfile).
  unfold bind at 1, read_bytes. rewrite Hfile.
  rewrite bool_decide_eq_false_2 by lia.
  unfold unlock_data. rewrite bool_decide_eq_false_2 by lia.
  rewrite take_ge by lia.
  unfold unlock_install.
  unfold bind at 1, notify at 1, set_world at 1.
  unfold bind at 1, lift at 1, py_iter.
  unfold bind at 1. cbn [comprehension]. unfold ret at 1.
  unfold bind at 1, set_self at 1.
  unfold bind at 1, notify at 1, set_world at 1.
  unfold bind at 1, set_self at 1.
  unfold bind at 1.
  erewrite path_exists_Some by (cbn; exact Hfile).
  reflexivity.
Qed.

Lemma unlock_no_file st password :
  kdf_yields_fernet_key →
  files (world st) !! FILE_LOCATION = None →
  unlock password st = (Return tt, first_state password st).
Proof.
  intros Hkey Hfile.
  unfold unlock, bind at 1. rewrite (path_exists_None _ _ Hfile).
  unfold bind at 1, os_urandom at 1.
  unfold unlock_data.
  rewrite bool_decide_eq_false_2
    by (rewrite length_fmap, length_seq; lia).
  rewrite take_ge by (rewrite length_fmap, length_seq; lia).
  unfold unlock_install.
  unfold bind at 1, notify at 1, set_world at 1.
  unfold bind at 1, lift at 1, py_iter.
  unfold bind at 1. cbn [comprehension]. unfold ret at 1.
  unfold bind at 1, set_self at 1.
  unfold bind at 1, notify at 1, set_world at 1.
  unfold bind at 1, set_self at 1.
  unfold bind at 1.
  erewrite path_exists_None by (cbn; exact Hfile).
  unfold bind at 1. rewrite _save_ok by (cbn; apply Hkey).
  reflexivity.
Qed.

(** C4.  With no vault file, [unlock] returns normally for every
    password; the collection is then empty and the store unlocked, the
    vault file holds a freshly drawn 16-byte salt followed by the
    encryption, under the key derived from it, of the empty list, and
    [firstTime] is false. *)
Theorem unlock_first_run st password :
  kdf_yields_fernet_key →
  files (world st) !! FILE_LOCATION = None →
  let w := world st in
  let salt := entropy w <$> seq (drawn w) 16 in
  let key := derive_key salt password in
  let iv := entropy w <$> seq (drawn w + 16) 16 in
  let token :=
    fernet_encrypt key (clock w (reads w)) iv (str_encode (json_dumps []))
  in
  ∃ st',
    unlock password st = (Return tt, st')
    ∧ _totps (self st') = []
    ∧ _unlocked (self st') = true
    ∧ _salt (self st') = salt
    ∧ length salt = 16%nat
    ∧ _key (self st') = key
    ∧ files (world st') = <[FILE_LOCATION := salt ++ token]> (files w)
    ∧ firstTime st' = (Return false, st').
Proof.
  intros Hkey Hfile w salt key iv token.
  exists (first_state password st).
  split; [by apply unlock_no_file|].
  repeat split; try done.
  unfold firstTime, bind.
  erewrite path_exists_Some; [done|].
  cbn. apply lookup_insert_eq.
Qed.

(** Whenever [unlock] returns having installed anything, it is the
    salt and the key it was given. *)
Lemma unlock_install_keys salt key v st st' :
  unlock_install salt key v st = (Return tt, st') →
  _salt (self st') = salt ∧ _key (self st') = key.
Proof.
  unfold unlock_install, bind at 1, notify at 1, set_world at 1.
  unfold bind at 1, lift at 1.
  destruct (py_iter v) as [items|e]; [|done].
  unfold bind at 1. rewrite comprehension_parse_item.
  destruct (parse_items items) as [ts|e]; [|done].
  unfold bind at 1, set_self at 1.
  unfold bind at 1, notify at 1, set_world at 1.
  unfold bind at 1, set_self at 1.
  unfold bind at 1, path_exists at 1.
  destruct (bool_decide _).
  - unfold bind, ret, set_self, emit, notify, set_world. by intros [= <-].
  - unfold bind at 1.
    destruct (fernet_key_ok key) eqn:Hk.
    + rewrite _save_ok by done.
      unfold bind, ret, set_self, emit, notify, set_world. by intros [= <-].
    + by rewrite _save_bad_key by done.
Qed.

(** X3.  An [unlock] that returns and takes the store from locked to
    unlocked leaves it keyed by the password: the salt has 16 bytes and
    the key is the one derived from it and the password. *)
Lemma unlock_keyed st password st' :
  unlock password st = (Return tt, st') →
  _unlocked (self st) = false →
  _unlocked (self st') = true →
  keyed password (self st').
Proof.
  intros Hrun Hbefore Hafter. unfold keyed.
  unfold unlock, bind at 1, path_exists in Hrun.
  destruct (files (world st) !! FILE_LOCATION) as [data|] eqn:Hfile.
  - rewrite bool_decide_eq_true_2 in Hrun by done.
    unfold bind at 1, read_bytes in Hrun. rewrite Hfile in Hrun.
    case_bool_decide as Hshort; [unfold ret in Hrun; congruence|].
    unfold unlock_data in Hrun. case_bool_decide as Hlong.
    + unfold bind at 1, Fernet in Hrun.
      destruct (fernet_key_ok _); [|done]. unfold ret at 1 in Hrun.
      destruct (fernet_decrypt _ _) as [plain|].
      * unfold bind at 1, lift at 1 in Hrun.
        destruct (json_loads plain) as [v|e]; [|done].
        apply unlock_install_keys in Hrun as [Hs Hk]. rewrite Hs, Hk.
        split; [|done]. rewrite length_take. lia.
      * unfold bind, set_self, emit, notify, set_world in Hrun.
        injection Hrun as <-. cbn in Hafter. congruence.
    + apply unlock_install_keys in Hrun as [Hs Hk]. rewrite Hs, Hk.
      split; [|done]. rewrite length_take. lia.
  - rewrite bool_decide_eq_false_2 in Hrun by (by intros [? ?]).
    unfold bind at 1, os_urandom at 1 in Hrun.
    unfold unlock_data in Hrun.
    rewrite bool_decide_eq_false_2 in Hrun
      by (rewrite length_fmap, length_seq; lia).
    apply unlock_install_keys in Hrun as [Hs Hk]. rewrite Hs, Hk.
    split; [|done]. by rewrite length_take, length_fmap, length_seq.
Qed.

(** *** Saving, then unlocking *)

Lemma parse_items_uris (ts : list pyotp.TOTP) :
  Forall uri_round_trip ts →
  ∃ ts', parse_items (PStr <$> (provisioning_uri <$> ts)) = Return ts'
         ∧ provisioning_uri <$> ts' = provisioning_uri <$> ts.
Proof.
  induction 1 as [|t ts (t' & Ht & Hu) _ (ts' & Hts & Hus)].
  - by exists [].
  - exists (t' :: ts'). cbn [fmap list_fmap parse_items].
    rewrite Ht. change (list_fmap _ _ PStr) with (fmap (M := list) PStr).
    change (list_fmap _ _ provisioning_uri)
      with (fmap (M := list) provisioning_uri).
    rewrite Hts. split; [done|]. by rewrite Hu, Hus.
Qed.

(** What [_save] writes opens again under the password of its key. *)
Lemma saved_vault_opens st password :
  fernet_round_trip →
  fernet_token_nonempty →
  keyed password (self st) →
  fernet_key_ok (_key (self st)) = true →
  json_round_trip (provisioning_uri <$> _totps (self st)) →
  Forall uri_round_trip (_totps (self st)) →
  ∃ totps,
    opens password (vault_bytes st) totps
    ∧ provisioning_uri <$> totps = provisioning_uri <$> _totps (self st).
Proof.
  intros Hrt Hne [Hsalt Hkey] Hok Hjson Huri.
  destruct (parse_items_uris _ Huri) as (totps & Hparse & Heq).
  exists totps. split; [|done].
  unfold opens, vault_bytes. split.
  - rewrite length_app, Hsalt.
    assert (length (vault_token st) ≠ 0%nat); [|lia].
    intros H0. apply (Hne (_key (self st))
      (clock (world st) (reads (world st)))
      (entropy (world st) <$> seq (drawn (world st)) 16)
      (str_encode (json_dumps (provisioning_uri <$> _totps (self st))))).
    by apply nil_length_inv.
  - eexists _, _, _.
    rewrite take_app_length' by done.
    rewrite drop_app_length' by done.
    rewrite <- Hkey. unfold vault_token.
    rewrite Hrt by done. split; [done|].
    split; [exact Hjson|]. by split.
Qed.

(** C1, amended.  The round trip, for a collection whose URIs [pyotp]
    reads back.  In a state whose key was derived from the password and its
    16-byte salt, as a successful [unlock] leaves it and [add] and
    [importFromFile] keep it, [_save] followed by
    [unlock] of a fresh store with the same password returns normally and
    yields a collection with the same provisioning URIs in the same
    order.  The libraries are taken to keep their contracts: the derived
    key is a Fernet key, decryption undoes encryption, a token is not
    empty, and JSON and the URI syntax round-trip on this collection. *)
Theorem save_unlock_round_trip st password :
  kdf_yields_fernet_key →
  fernet_round_trip →
  fernet_token_nonempty →
  keyed password (self st) →
  json_round_trip (provisioning_uri <$> _totps (self st)) →
  Forall uri_round_trip (_totps (self st)) →
  ∃ st1 st2,
    _save st = (Return tt, st1)
    ∧ unlock password {| self := TOTPModel_init; world := world st1 |}
      = (Return tt, st2)
    ∧ _unlocked (self st2) = true
    ∧ provisioning_uri <$> _totps (self st2)
      = provisioning_uri <$> _totps (self st).
Proof.
  intros Hkdf Hrt Hne Hkeyed Hjson Huri.
  assert (Hok : fernet_key_ok (_key (self st)) = true)
    by (rewrite (proj2 Hkeyed); apply Hkdf).
  destruct (saved_vault_opens st password) as (totps & Hopen & Heq);
    try done.
  eexists (saved st), _. split; [by apply _save_ok|].
  split; [|split].
  - apply unlock_opens with (data := vault_bytes st); [done| |done].
    cbn. apply lookup_insert_eq.
  - done.
  - done.
Qed.

(** *** The walk of [importFromFile] *)

(** Induction on a JSON value, with the hypothesis on every item of a
    list and every value of a dict. *)
Lemma PyVal_ind (P : PyVal → Prop) :
  P PNone →
  (∀ b, P (PBool b)) →
  (∀ n, P (PInt n)) →
  (∀ q, P (PFloat q)) →
  (∀ s, P (PStr s)) →
  (∀ items, Forall P items → P (PList items)) →
  (∀ items, Forall (λ kv, P kv.2) items → P (PDict items)) →
  ∀ v, P v.
Proof.
  intros HNone HBool HInt HFloat HStr HList HDict.
  fix IH 1. intros [|b|n|q|s|items|items].
  - exact HNone.
  - exact (HBool b).
  - exact (HInt n).
  - exact (HFloat q).
  - exact (HStr s).
  - apply HList. induction items as [|x r IHr]; constructor.
    + exact (IH x).
    + exact IHr.
  - apply HDict. induction items as [|[k x] r IHr]; constructor.
    + exact (IH x).
    + exact IHr.
Qed.

Lemma scan_app l1 l2 st :
  scan (l1 ++ l2) st = (a <- scan l1 ;; b <- scan l2 ;; ret (a ++ b)) st.
Proof.
  revert st. induction l1 as [|s r IH]; intros st.
  - cbn. unfold bind, ret. destruct (scan l2 st) as [[b|e] st']; done.
  - cbn [app scan]. unfold bind.
    destruct (candidate s st) as [[a|e] st1]; [|done].
    rewrite IH. unfold bind, ret.
    destruct (scan r st1) as [[b|e] st2]; [|done].
    destruct (scan l2 st2) as [[c|e] st3]; [|done].
    by rewrite app_assoc.
Qed.

(** The recursive generator visits exactly the strings of the document,
    in depth-first order. *)
Lemma _recursiveSearch_scan v st :
  _recursiveSearch v st = scan (strings v) st.
Proof.
  revert st. induction v as [| | | |s|items IH|items IH] using PyVal_ind;
    intros st; try done.
  - cbn. unfold bind, ret. destruct (candidate s st) as [[a|e] st']; [|done].
    by rewrite app_nil_r.
  - cbn [_recursiveSearch strings]. revert st.
    induction IH as [|x r Hx _ IHr]; intros st; [done|].
    cbn [List.map concat]. rewrite scan_app.
    unfold bind. rewrite Hx.
    destruct (scan (strings x) st) as [[a|e] st1]; [|done].
    by rewrite IHr.
  - cbn [_recursiveSearch strings]. revert st.
    induction IH as [|[k x] r Hx _ IHr]; intros st; [done|].
    cbn [List.map concat]. rewrite scan_app.
    unfold bind. cbn [snd] in *. rewrite Hx.
    destruct (scan (strings x) st) as [[a|e] st1]; [|done].
    by rewrite IHr.
Qed.

Lemma later_0 w : later 0 w = w.
Proof. destruct w. unfold later. cbn. by rewrite Nat.add_0_r. Qed.

Lemma later_S n w :
  later n {| files := files w; entropy := entropy w; drawn := drawn w;
             clock := clock w; reads := S (reads w); trace := trace w |}
  = later (S n) w.
Proof. unfold later. cbn. f_equal. lia. Qed.

Lemma scan_benign l st :
  Forall (λ s, matching s → benign s) l →
  scan l st
  = (Return (kept (clock (world st)) (reads (world st)) l),
     {| self := self st; world := later (readings l) (world st) |}).
Proof.
  intros H. revert st. induction H as [|s r Hs _ IH]; intros st.
  - cbn. rewrite later_0. by destruct st.
  - cbn [scan kept readings]. unfold bind at 1, candidate.
    unfold matching in Hs.
    destruct (String.prefix "otpauth://totp" s).
    + destruct (Hs eq_refl) as [Hp Hn]. clear Hs.
      unfold try_except_ValueError, bind at 1, lift at 1.
      destruct (parse_uri s) as [t|e] eqn:Hs.
      * unfold bind at 1, now, bind at 1, timestamp at 1, lift at 1.
        specialize (Hn t (clock (world st) (reads (world st))) eq_refl).
        destruct (TOTP_now t _) as [c|e]; cbn in Hn.
        -- unfold ret at 1. unfold bind. rewrite IH. cbn.
           by rewrite later_S.
        -- subst e. unfold ret at 1. unfold bind. rewrite IH. cbn.
           by rewrite later_S.
      * cbn in Hp. subst e. unfold ret at 1. unfold bind. by rewrite IH.
    + unfold ret at 1. unfold bind. by rewrite IH.
Qed.

(** *** Adding one secret *)

Lemma add_try_Return st issuer name secret t :
  validated secret issuer name (clock (world st) (reads (world st)))
  = Return t →
  add_try issuer name secret st
  = (Return (Some t), {| self := self st; world := later 1 (world st) |}).
Proof.
  unfold validated, add_try, try_except_ValueError, bind at 1, lift at 1.
  destruct (TOTP_new secret issuer name) as [t'|e]; [|done].
  unfold bind at 1, now, bind at 1, timestamp at 1, lift at 1.
  destruct (TOTP_now t' _) as [c|e]; [|done].
  intros [= ->]. unfold ret, later. cbn. do 4 f_equal. lia.
Qed.


(** In a state whose key [Fernet] rejects, as before any [unlock], [add]
    of a valid secret appends it in memory and then raises out of
    [_save]: nothing is written and no index is returned. *)
Lemma add_bad_key st issuer name secret t :
  validated secret issuer name (clock (world st) (reads (world st)))
  = Return t →
  fernet_key_ok (_key (self st)) = false →
  add issuer name secret st = (Raise ValueError, appended t st).
Proof.
  intros Hv Hk. unfold add, bind at 1.
  rewrite (add_try_Return _ _ _ _ _ Hv).
  unfold bind at 1, get_self at 1.
  unfold bind at 1, notify at 1, set_world at 1.
  unfold bind at 1, set_self at 1.
  unfold bind at 1, notify at 1, set_world at 1.
  unfold bind at 1. by rewrite _save_bad_key.
Qed.


(** *** Importing *)

Lemma importFromFile_walk st fname (raw : bytes) doc :
  files (world st) !! fname = Some raw →
  json_loads raw = Return doc →
  Forall (λ s, matching s → benign s) (strings doc) →
  importFromFile fname st
  = match kept (clock (world st)) (reads (world st)) (strings doc) with
    | [] => (Return tt,
             {| self := self st;
                world := later (readings (strings doc)) (world st) |})
    | found =>
        _save (extended found (readings (strings doc)) st)
    end.
Proof.
  intros Hfile Hjson Hb.
  unfold importFromFile, bind at 1, read_bytes. rewrite Hfile.
  unfold bind at 1, lift at 1. rewrite Hjson.
  unfold bind at 1. rewrite _recursiveSearch_scan, scan_benign by done.
  destruct (kept _ _ _) as [|t found]; [done|].
  reflexivity.
Qed.


(** In a state whose key [Fernet] rejects, an import that finds a
    descriptor appends it in memory and raises out of [_save]: the vault
    file is not written. *)
Lemma importFromFile_bad_key st fname (raw : bytes) doc :
  files (world st) !! fname = Some raw →
  json_loads raw = Return doc →
  Forall (λ s, matching s → benign s) (strings doc) →
  kept (clock (world st)) (reads (world st)) (strings doc) ≠ [] →
  fernet_key_ok (_key (self st)) = false →
  ∃ st', importFromFile fname st = (Raise ValueError, st')
         ∧ files (world st') = files (world st).
Proof.
  intros Hfile Hjson Hb Hne Hk.
  rewrite (importFromFile_walk _ _ _ _ Hfile Hjson Hb).
  destruct (kept _ _ _) as [|t found]; [done|].
  rewrite _save_bad_key by done. by eexists.
Qed.

End Vault.

(** ** What every run of the program preserves

    For a reflexive and transitive relation on the model object that the
    field updates of the program respect, every operation relates the
    object before to the object after, whether it returns or raises. *)

Section Preservation.
Context {L : Libs}.
Variable R : TOTPModel → TOTPModel → Prop.
Hypothesis R_refl : ∀ m, R m m.
Hypothesis R_trans : ∀ m1 m2 m3, R m1 m2 → R m2 m3 → R m1 m3.

Lemma preserves_same_self {A} (m : Py A) :
  (∀ st, self (m st).2 = self st) → preserves R m.
Proof. intros H st. rewrite H. apply R_refl. Qed.

Lemma preserves_ret {A} (a : A) : preserves R (ret a).
Proof. by apply preserves_same_self. Qed.

Lemma preserves_raise {A} e : preserves R (raise (A := A) e).
Proof. by apply preserves_same_self. Qed.

Lemma preserves_lift {A} (r : result A) : preserves R (lift r).
Proof. by apply preserves_same_self. Qed.

Lemma preserves_get_self : preserves R get_self.
Proof. by apply preserves_same_self. Qed.

Lemma preserves_set_world f : preserves R (set_world f).
Proof. by apply preserves_same_self. Qed.

Lemma preserves_os_urandom n : preserves R (os_urandom n).
Proof. by apply preserves_same_self. Qed.

Lemma preserves_timestamp : preserves R timestamp.
Proof. by apply preserves_same_self. Qed.

Lemma preserves_path_exists p : preserves R (path_exists p).
Proof. by apply preserves_same_self. Qed.

Lemma preserves_read_bytes p : preserves R (read_bytes p).
Proof.
  apply preserves_same_self. intros st. unfold read_bytes.
  by destruct (files (world st) !! p).
Qed.

Lemma preserves_set_self f : (∀ m, R m (f m)) → preserves R (set_self f).
Proof. intros Hf st. apply Hf. Qed.

Lemma preserves_bind {A B} (m : Py A) (k : A → Py B) :
  preserves R m → (∀ a, preserves R (k a)) → preserves R (bind m k).
Proof.
  intros Hm Hk st. unfold bind. specialize (Hm st).
  destruct (m st) as [[a|e] st1]; [|done].
  eapply R_trans; [exact Hm|apply Hk].
Qed.

Lemma preserves_try {A} (body handler : Py A) :
  preserves R body → preserves R handler →
  preserves R (try_except_ValueError body handler).
Proof.
  intros Hb Hh st. unfold try_except_ValueError. specialize (Hb st).
  destruct (body st) as [[a|[]] st1]; try done.
  eapply R_trans; [exact Hb|apply Hh].
Qed.

Create HintDb preserves.
#[local] Hint Resolve preserves_ret preserves_raise preserves_lift
  preserves_get_self preserves_set_world preserves_os_urandom
  preserves_timestamp preserves_path_exists preserves_read_bytes
  : preserves.

(** Splits a program along its binds and branches. *)
Ltac preserved :=
  repeat first
    [ progress intros
    | solve [eauto with preserves]
    | apply preserves_bind
    | apply preserves_try
    | apply preserves_set_self; solve [auto]
    | match goal with
      | |- preserves _ (if ?b then _ else _) => destruct b
      | |- preserves _ (match ?x with _ => _ end) => destruct x
      end ].

Lemma preserves_notify e : preserves R (notify e).
Proof. unfold notify. preserved. Qed.

Lemma preserves_write_bytes p d : preserves R (write_bytes p d).
Proof. unfold write_bytes. preserved. Qed.

#[local] Hint Resolve preserves_notify preserves_write_bytes : preserves.

Lemma preserves_comprehension {A B} (f : A → Py B) l :
  (∀ a, preserves R (f a)) → preserves R (comprehension f l).
Proof. intros Hf. induction l; cbn [comprehension]; preserved. Qed.

Lemma preserves_Fernet key : preserves R (Fernet key).
Proof. unfold Fernet. preserved. Qed.

Lemma preserves_Fernet_encrypt f d : preserves R (Fernet_encrypt f d).
Proof. unfold Fernet_encrypt. preserved. Qed.

#[local] Hint Resolve preserves_Fernet preserves_Fernet_encrypt
  : preserves.

Lemma preserves_save : preserves R _save.
Proof. unfold _save. preserved. Qed.

Lemma preserves_parse_item v : preserves R (parse_item v).
Proof. destruct v; cbn; preserved. Qed.

Lemma preserves_now t : preserves R (now t).
Proof. unfold now. preserved. Qed.

#[local] Hint Resolve preserves_save preserves_parse_item
  preserves_comprehension preserves_now : preserves.

(** [add] and [importFromFile] assign [_totps] only. *)
Hypothesis R_totps : ∀ l m, R m (with_totps l m).

Lemma preserves_add issuer name secret :
  preserves R (add issuer name secret).
Proof. unfold add, add_try. preserved. Qed.

Lemma preserves_scan l : preserves R (scan l).
Proof. induction l; cbn [scan]; unfold candidate; preserved. Qed.

Lemma preserves_importFromFile fname : preserves R (importFromFile fname).
Proof.
  unfold importFromFile. preserved.
  intros st. rewrite _recursiveSearch_scan. apply preserves_scan.
Qed.

(** [unlock] also assigns salt and key, and sets either flag. *)
Hypothesis R_salt_key : ∀ s k m, R m (with_salt_key s k m).
Hypothesis R_unlocked : ∀ m, R m (with_unlocked true m).
Hypothesis R_failedToLoad : ∀ m, R m (with_failedToLoad true m).


End Preservation.

(** ** Invariants over sequences of operations *)

Section Invariants.
Context {L : Libs}.
Local Open Scope Z_scope.





Lemma same_keys_refl m : same_keys m m.
Proof. by split. Qed.

Lemma same_keys_trans m1 m2 m3 :
  same_keys m1 m2 → same_keys m2 m3 → same_keys m1 m3.
Proof. intros [? ?] [? ?]. split; congruence. Qed.

(** [add] and [importFromFile] leave salt and key alone, so a keyed
    store stays keyed under them, whether they return or raise. *)
Lemma add_keeps_keyed password issuer name secret st :
  keyed password (self st) →
  keyed password (self (add issuer name secret st).2).
Proof.
  intros [Hs Hk].
  destruct (preserves_add same_keys same_keys_refl same_keys_trans
              (λ _ _, same_keys_refl _) issuer name secret st) as [Hs' Hk'].
  unfold keyed. by rewrite Hs', Hk'.
Qed.

Lemma importFromFile_keeps_keyed password fname st :
  keyed password (self st) →
  keyed password (self (importFromFile fname st).2).
Proof.
  intros [Hs Hk].
  destruct (preserves_importFromFile same_keys same_keys_refl
              same_keys_trans (λ _ _, same_keys_refl _) fname st)
    as [Hs' Hk'].
  unfold keyed. by rewrite Hs', Hk'.
Qed.


End Invariants.

(** ** The list-model interface and the helper object *)

Section Interface.
Context {L : Libs}.
Local Open Scope Z_scope.

Lemma checkIndex_in_range index st :
  in_range index st → checkIndex index st = (Return true, st).
Proof.
  intros (Hv & Ho & Hp & Hc & Hr). unfold checkIndex.
  rewrite Hv, Ho, Hp, Hc. cbn [negb].
  destruct (Qt.row index <? 0) eqn:Hneg; [lia|]. cbn.
  unfold bind, rowCount, bind, get_self, ret. cbn.
  by rewrite (proj2 (Z.ltb_lt _ _)) by lia.
Qed.

Lemma checkIndex_inv index st b st' :
  checkIndex index st = (Return b, st') →
  st' = st
  ∧ (b = true → 0 ≤ Qt.row index < Z.of_nat (length (_totps (self st)))
                ∧ Qt.isValid index = true
                ∧ Qt.parentIsValid index = false).
Proof.
  unfold checkIndex.
  destruct (Qt.isValid index); cbn [negb]; [|by intros [= <- <-]].
  destruct (Qt.own index); cbn [negb]; [|by intros [= <- <-]].
  destruct (Qt.row index <? 0) eqn:Hneg; [by intros [= <- <-]|].
  destruct (Qt.column index <? 0); [by intros [= <- <-]|]. cbn [orb].
  destruct (Qt.parentIsValid index); [by intros [= <- <-]|].
  unfold bind, rowCount, bind, get_self, ret. cbn.
  intros [= <- <-]. split; [done|]. intros Hb.
  apply andb_true_iff in Hb as [Hb _]. lia.
Qed.

Lemma checkIndex_total index st :
  ∃ b, checkIndex index st = (Return b, st).
Proof.
  unfold checkIndex.
  destruct (Qt.isValid index); cbn [negb]; [|by eexists].
  destruct (Qt.own index); cbn [negb]; [|by eexists].
  destruct (_ || _); [by eexists|].
  destruct (Qt.parentIsValid index); [by eexists|].
  unfold bind, rowCount, bind, get_self, ret. cbn. by eexists.
Qed.

Lemma getitem_in_range {A} (l : list A) i st :
  0 ≤ i < Z.of_nat (length l) →
  ∃ x, l !! Z.to_nat i = Some x ∧ getitem l i st = (Return x, st).
Proof.
  intros Hi. unfold getitem.
  destruct (i <? 0) eqn:Hneg; [lia|]. rewrite Hneg.
  destruct (lookup_lt_is_Some_2 l (Z.to_nat i)) as [x Hx]; [lia|].
  exists x. by rewrite Hx.
Qed.

(** C9.  For every row of the collection, [data] with [DisplayRole]
    returns the label of its descriptor: issuer, " for " and account name
    when both are non-empty, the issuer alone or the account name alone
    when only that one is, and the empty string when neither is. *)
Theorem data_display_label st index t :
  in_range index st →
  _totps (self st) !! Z.to_nat (Qt.row index) = Some t →
  data index Qt.DisplayRole st = (Return (DStr (display_label t)), st).
Proof.
  intros Hin Ht. unfold data, bind at 1.
  rewrite (checkIndex_in_range _ _ Hin). cbn [negb].
  unfold bind at 1, get_self at 1.
  destruct Hin as (_ & _ & _ & _ & Hr).
  destruct (getitem_in_range (_totps (self st)) (Qt.row index) st Hr)
    as (x & Hx & Hget).
  unfold bind at 1. rewrite Hget.
  assert (x = t) as -> by congruence.
  unfold display_label, truthy, present.
  by destruct (pyotp.issuer t) as [[|c i]|], (pyotp.name t) as [|d n].
Qed.

(** [data] returns normally and leaves the state alone, whatever it is
    asked. *)
Lemma data_total st index role :
  ∃ d, data index role st = (Return d, st).
Proof.
  unfold data, bind at 1.
  destruct (checkIndex_total index st) as [b Hb]. rewrite Hb.
  destruct b; cbn [negb]; [|by eexists].
  apply checkIndex_inv in Hb as [_ Hb]. destruct (Hb eq_refl) as (Hr & _).
  unfold bind at 1, get_self at 1.
  destruct (getitem_in_range (_totps (self st)) (Qt.row index) st Hr)
    as (x & Hx & Hget).
  destruct role.
  - unfold bind at 1. rewrite Hget.
    destruct (truthy (pyotp.issuer x)); [|by eexists].
    destruct (truthy (Some (pyotp.name x))); by eexists.
  - unfold bind at 1. rewrite Hget. by eexists.
  - by eexists.
Qed.

(** C10.  [data] never raises and never changes the state.  It returns
    [None] for an index whose row is outside the collection, for an index
    that is invalid or has a valid parent, and for every role other than
    [DisplayRole] and [UserRole].  [rowCount] of a valid parent is 0. *)
Theorem data_invalid_index_safe st index role :
  (∃ d, data index role st = (Return d, st))
  ∧ ((Qt.row index < 0
      ∨ Z.of_nat (length (_totps (self st))) ≤ Qt.row index
      ∨ Qt.isValid index = false
      ∨ Qt.parentIsValid index = true
      ∨ (∃ n, role = Qt.OtherRole n)) →
     data index role st = (Return DNone, st))
  ∧ (∀ parent, Qt.isValid parent = true →
               rowCount parent st = (Return 0, st)).
Proof.
  split; [apply data_total|]. split.
  - intros H. unfold data, bind at 1.
    destruct (checkIndex_total index st) as [b Hb]. rewrite Hb.
    destruct b; cbn [negb]; [|done].
    apply checkIndex_inv in Hb as [_ Hb].
    destruct (Hb eq_refl) as (Hr & Hv & Hp).
    destruct H as [H|[H|[H|[H|[n ->]]]]]; try lia; try congruence.
    reflexivity.
  - intros parent Hv. unfold rowCount, bind, get_self, ret. by rewrite Hv.
Qed.

Lemma Qmod_range t p : (0 < p → 0 <= Qmod t p ∧ Qmod t p < p)%Q.
Proof.
  intros Hp. unfold Qmod.
  assert (Hnz : ¬ (p == 0)%Q) by lra.
  pose proof (Qfloor_le (t / p)) as Hlo.
  pose proof (Qlt_floor (t / p)) as Hhi.
  rewrite inject_Z_plus in Hhi.
  set (f := inject_Z (Qfloor (t / p))) in *.
  assert (Ht : (t == (t / p) * p)%Q) by (field; exact Hnz).
  assert (H1 : (f * p <= (t / p) * p)%Q)
    by (apply Qmult_le_compat_r; lra).
  assert (H2 : ((t / p) * p < (f + inject_Z 1) * p)%Q)
    by (apply Qmult_lt_compat_r; lra).
  rewrite <- Ht in H1, H2.
  change (inject_Z 1) with 1%Q in H2.
  split; lra.
Qed.

Lemma data_user_role st index t :
  in_range index st →
  _totps (self st) !! Z.to_nat (Qt.row index) = Some t →
  data index Qt.UserRole st = (Return (DTotp t), st).
Proof.
  intros Hin Ht. unfold data, bind at 1.
  rewrite (checkIndex_in_range _ _ Hin). cbn [negb].
  unfold bind at 1, get_self at 1.
  destruct Hin as (_ & _ & _ & _ & Hr).
  destruct (getitem_in_range (_totps (self st)) (Qt.row index) st Hr)
    as (x & Hx & Hget).
  unfold bind at 1. rewrite Hget. unfold ret. congruence.
Qed.

Lemma model_index_row st i :
  0 ≤ i < Z.of_nat (length (_totps (self st))) →
  model_index i 0 st = (Return (Qt.createIndex i 0), st).
Proof.
  intros Hi. unfold model_index, bind, rowCount, bind, get_self, ret. cbn.
  destruct (i <? 0) eqn:Hneg; [lia|]. cbn.
  by rewrite (proj2 (Z.ltb_lt _ _)) by lia.
Qed.

(** *** Floats *)

Lemma binary64_proper q q' : (q == q')%Q → binary64 q = binary64 q'.
Proof. intros H. unfold binary64. by rewrite (Qred_complete _ _ H). Qed.

Lemma Qred_inject_Z n : Qred (inject_Z n) = inject_Z n.
Proof.
  unfold Qred, inject_Z.
  pose proof (Z.ggcd_gcd n 1) as Hg.
  pose proof (Z.ggcd_correct_divisors n 1) as Hd.
  destruct (Z.ggcd n 1) as [g [a b]]. cbn in *.
  rewrite Z.gcd_1_r in Hg. subst g. destruct Hd as [Ha Hb].
  assert (b = 1) by lia. subst b. f_equal. lia.
Qed.

Lemma nearest_Z n : 0 < n < 2 ^ 53 → nearest n 1 = inject_Z n.
Proof.
  intros Hn. unfold nearest.
  assert (Hl : 0 ≤ Z.log2 n ≤ 52).
  { split; [apply Z.log2_nonneg|].
    assert (Z.log2 n < 53); [|lia].
    apply Z.log2_lt_pow2; lia. }
  pose proof (Z.log2_spec n ltac:(lia)) as [Hlo Hhi].
  assert (Hb : binade n 1 = Z.log2 n).
  { unfold binade. change (Z.log2 1) with 0. rewrite Z.sub_0_r.
    unfold pow2. rewrite (Z.max_l 0 (- Z.log2 n)) by lia.
    rewrite (Z.max_r 0 (Z.log2 n)) by lia.
    change (2 ^ 0) with 1. rewrite Z.mul_1_r, Z.mul_1_l.
    destruct (Z.ltb_spec n (2 ^ Z.log2 n)); [lia|reflexivity]. }
  rewrite Hb. rewrite Z.max_l by lia.
  unfold pow2. rewrite (Z.max_l 0 (Z.log2 n - 52)) by lia.
  rewrite (Z.max_r 0 (- (Z.log2 n - 52))) by lia.
  change (2 ^ 0) with 1. rewrite !Z.mul_1_r.
  set (c := 2 ^ (- (Z.log2 n - 52))).
  assert (Hc : 0 < c) by (apply Z.pow_pos_nonneg; lia).
  unfold round_half_even. rewrite Z.mod_1_r, Z.div_1_r.
  rewrite <- Qred_inject_Z. apply Qred_complete.
  unfold Qeq, inject_Z. cbn [Qnum Qden]. rewrite Z2Pos.id by lia.
  change (2 * 0 ?= 1) with Lt. ring.
Qed.

(** An integer below [2 ^ 53] is a double. *)
Lemma binary64_Z n : Z.abs n < 2 ^ 53 → binary64 (inject_Z n) = inject_Z n.
Proof.
  intros Hn. unfold binary64. rewrite Qred_inject_Z. cbn [Qnum Qden inject_Z].
  destruct n as [|n|n]; [reflexivity| |].
  - apply nearest_Z. lia.
  - rewrite nearest_Z by lia. reflexivity.
Qed.

Lemma float_of_int_small n st :
  Z.abs n < 2 ^ 53 → float_of_int n st = (Return (inject_Z n), st).
Proof.
  intros Hn. unfold float_of_int. rewrite (binary64_Z _ Hn).
  assert (Hbig : 2 ^ 53 < 2 ^ 1024) by (apply Z.pow_lt_mono_r; lia).
  destruct (Qle_bool (inject_Z (2 ^ 1024)) (inject_Z n)) eqn:H1.
  { apply Qle_bool_iff in H1. rewrite <- Zle_Qle in H1. lia. }
  destruct (Qle_bool (inject_Z n) (inject_Z (- 2 ^ 1024))) eqn:H2.
  { apply Qle_bool_iff in H2. rewrite <- Zle_Qle in H2. lia. }
  reflexivity.
Qed.

Lemma float_mod_small t n st :
  n ≠ 0 → Z.abs n < 2 ^ 53 →
  float_mod t n st = (Return (float_rem t (inject_Z n)), st).
Proof.
  intros Hz Hn. unfold float_mod, bind. rewrite (float_of_int_small _ _ Hn).
  destruct (Qeq_bool (inject_Z n) 0) eqn:H0; [|reflexivity].
  apply Qeq_bool_iff in H0. unfold Qeq, inject_Z in H0.
  cbn [Qnum Qden] in H0. lia.
Qed.

Lemma Qtruncate_nonneg x : (0 <= x)%Q → Qtruncate x = Qfloor x.
Proof.
  intros H. destruct x as [n d]. unfold Qtruncate, Qfloor. cbn [Qnum Qden].
  apply Z.quot_div_nonneg; [|lia].
  unfold Qle in H. cbn in H. lia.
Qed.

(** From the epoch on, the float remainder by a positive period is the
    exact remainder. *)
Lemma float_rem_nonneg t p :
  (0 <= t)%Q → (0 < p)%Q → (float_rem t p == Qmod t p)%Q.
Proof.
  intros Ht Hp.
  assert (Hq : (0 <= t / p)%Q).
  { apply Qle_shift_div_l; [exact Hp|]. lra. }
  assert (Hm : fmod t p = Qmod t p).
  { unfold fmod, Qmod. by rewrite (Qtruncate_nonneg _ Hq). }
  unfold float_rem. rewrite Hm.
  destruct (Qeq_bool (Qmod t p) 0) eqn:Hz.
  - apply Qeq_bool_eq in Hz. by rewrite Hz.
  - destruct (Qmod_range t p Hp) as [Hr _].
    rewrite (proj2 (Qle_bool_iff 0 p)) by lra.
    rewrite (proj2 (Qle_bool_iff 0 (Qmod t p))) by exact Hr.
    reflexivity.
Qed.

(** C8, amended.  With no model set, or with index -1, [timeLeft] is 0.
    For a
    helper bound to a row whose descriptor has a period [p] with
    [0 < p < 2 ^ 53], [timeLeft] reads the clock once and, at the
    reading [t], is the double nearest to [p - r], where [r] is the
    float remainder [t % p].  From the epoch on ([0 ≤ t]) that remainder
    is [t mod p], so that [timeLeft] is [p - (t mod p)] rounded to the
    nearest double. *)
Theorem timeLeft_seconds_remaining st this :
  (_model this = None ∨ _index this = -1 →
   timeLeft this st = (Return 0%Q, st))
  ∧ (∀ d,
       _model this ≠ None →
       _index this ≠ -1 →
       0 ≤ _index this →
       _totps (self st) !! Z.to_nat (_index this) = Some d →
       0 < pyotp.interval d < 2 ^ 53 →
       let t := clock (world st) (reads (world st)) in
       let p := inject_Z (pyotp.interval d) in
       let st' := {| self := self st; world := later 1 (world st) |} in
       timeLeft this st = (Return (binary64 (p - float_rem t p)), st')
       ∧ ((0 <= t)%Q →
          timeLeft this st = (Return (binary64 (p - Qmod t p)), st'))).
Proof.
  split.
  - intros [Hm|Hi]; unfold timeLeft.
    + by rewrite bool_decide_eq_true_2.
    + rewrite Hi. by rewrite orb_true_r.
  - intros d Hm Hi Hpos Hd Hp t p st'.
    assert (Hrun : timeLeft this st
                   = (Return (binary64 (p - float_rem t p)), st')).
    { unfold timeLeft. rewrite bool_decide_eq_false_2 by done.
      rewrite (proj2 (Z.eqb_neq _ _) Hi). cbn [orb].
      assert (Hr : 0 ≤ _index this < Z.of_nat (length (_totps (self st)))).
      { apply lookup_lt_Some in Hd. lia. }
      unfold bind at 1. rewrite (model_index_row _ _ Hr).
      unfold bind at 1, index_data. cbn [Qt.isValid Qt.createIndex].
      rewrite (data_user_role st (Qt.createIndex (_index this) 0) d);
        [|repeat split; cbn; lia|exact Hd].
      unfold bind at 1, timestamp at 1.
      unfold bind at 1. rewrite float_mod_small by lia.
      unfold bind at 1. rewrite float_of_int_small by lia.
      unfold ret, st', later. cbn [self world files entropy drawn clock
        reads trace]. do 4 f_equal. lia. }
    split; [exact Hrun|].
    intros Ht. rewrite Hrun. do 2 f_equal. apply binary64_proper.
    assert (Hq : (0 < p)%Q).
    { unfold p. change 0%Q with (inject_Z 0). rewrite <- Zlt_Qlt. lia. }
    by rewrite (float_rem_nonneg t p Ht Hq).
Qed.

End Interface.

(** ** More on unlocking and on the walk *)

Section Unlocking.
Context {L : Libs}.
Local Open Scope Z_scope.

Lemma unlock_install_keeps_files salt key v st (data : bytes) :
  files (world st) !! FILE_LOCATION = Some data →
  files (world (unlock_install salt key v st).2) = files (world st).
Proof.
  intros Hfile.
  unfold unlock_install, bind at 1, notify at 1, set_world at 1.
  unfold bind at 1, lift at 1.
  destruct (py_iter v) as [items|e]; [|done].
  unfold bind at 1. rewrite comprehension_parse_item.
  destruct (parse_items items) as [ts|e]; [|done].
  unfold bind at 1, set_self at 1.
  unfold bind at 1, notify at 1, set_world at 1.
  unfold bind at 1, set_self at 1.
  unfold bind at 1.
  erewrite path_exists_Some by (cbn; exact Hfile).
  reflexivity.
Qed.

(** X1.  When the vault file exists, [unlock] never writes, replaces or
    removes a file, whatever the password and however it ends: wrong
    password, unreadable payload, success or short file. *)
Theorem unlock_keeps_existing_vault st password (data : bytes) :
  files (world st) !! FILE_LOCATION = Some data →
  files (world (unlock password st).2) = files (world st).
Proof.
  intros Hfile.
  unfold unlock, bind at 1. rewrite (path_exists_Some _ _ _ Hfile).
  unfold bind at 1, read_bytes. rewrite Hfile.
  case_bool_decide; [done|].
  unfold unlock_data. case_bool_decide.
  - unfold bind at 1, Fernet.
    destruct (fernet_key_ok _); [|done]. unfold ret at 1.
    destruct (fernet_decrypt _ _) as [plain|]; [|done].
    unfold bind at 1, lift at 1.
    destruct (json_loads plain) as [v|e]; [|done].
    by apply unlock_install_keeps_files with (data := data).
  - by apply unlock_install_keeps_files with (data := data).
Qed.

(** X2.  If the vault decrypts but its payload is unusable, [unlock]
    raises and neither unlocks nor touches collection, salt, key or
    files.  When the payload is not JSON the state is exactly as before.
    When it is JSON but not a list of parsable URIs, [beginResetModel]
    has been signalled and [endResetModel] never is. *)
Theorem unlock_bad_payload st password (data plain : bytes) :
  kdf_yields_fernet_key →
  files (world st) !! FILE_LOCATION = Some data →
  (16 < length data)%nat →
  fernet_decrypt (derive_key (take 16 data) password) (drop 16 data)
  = Some plain →
  (∀ e, json_loads plain = Raise e → unlock password st = (Raise e, st))
  ∧ (∀ v e,
       json_loads plain = Return v →
       payload_items v = Raise e →
       unlock password st
       = (Raise e,
          {| self := self st; world := log BeginResetModel (world st) |})).
Proof.
  intros Hkey Hfile Hlen Hdec.
  assert (Hrun : unlock password st
    = (totps <- lift (json_loads plain) ;;
       unlock_install (take 16 data)
         (derive_key (take 16 data) password) totps) st).
  { unfold unlock, bind at 1. rewrite (path_exists_Some _ _ _ Hfile).
    unfold bind at 1, read_bytes. rewrite Hfile.
    rewrite bool_decide_eq_false_2 by lia.
    unfold unlock_data. rewrite bool_decide_eq_true_2 by lia.
    unfold bind at 1, Fernet. rewrite Hkey. unfold ret at 1.
    by rewrite Hdec. }
  rewrite Hrun. split.
  - intros e He. unfold bind, lift. by rewrite He.
  - intros v e Hv He. unfold bind at 1, lift at 1. rewrite Hv.
    unfold unlock_install, bind at 1, notify at 1, set_world at 1.
    unfold bind at 1, lift at 1. unfold payload_items in He.
    destruct (py_iter v) as [items|e']; [|by injection He as ->].
    unfold bind at 1. rewrite comprehension_parse_item, He. reflexivity.
Qed.

(** X14.  Unlocking an existing vault that opens under the password
    replaces the collection wholesale by the vault's, whatever was in
    memory, installs the file's salt and the derived key, sets
    [unlocked], keeps [failedToLoad] as it was, writes nothing, and
    signals one model reset followed by [unlockedChanged]. *)
Theorem unlock_existing_vault st password (data : bytes) totps :
  kdf_yields_fernet_key →
  files (world st) !! FILE_LOCATION = Some data →
  opens password data totps →
  ∃ st',
    unlock password st = (Return tt, st')
    ∧ _totps (self st') = totps
    ∧ _salt (self st') = take 16 data
    ∧ keyed password (self st')
    ∧ _unlocked (self st') = true
    ∧ _failedToLoad (self st') = _failedToLoad (self st)
    ∧ files (world st') = files (world st)
    ∧ trace (world st')
      = trace (world st)
        ++ [BeginResetModel; EndResetModel; Emit unlockedChanged].
Proof.
  intros Hkdf Hfile Hopen.
  exists (unlocked_state password data totps st).
  split; [by apply unlock_opens|].
  split_and!; try done.
  - split; [|done]. cbn. rewrite length_take. destruct Hopen as [? _]. lia.
  - cbn. by rewrite <- !app_assoc.
Qed.

(** A run that returns is the pair of its value and its final state. *)
Lemma returned {A} (m : Py A) st a :
  (m st).1 = Return a → m st = (Return a, (m st).2).
Proof. destruct (m st) as [r st']. cbn. by intros ->. Qed.


(** X15.  What the walk of an import yields, and the state it leaves,
    depend only on the strings of the document in depth-first order:
    keys of mappings, nesting, numbers, booleans and nulls make no
    difference. *)
Theorem walk_by_strings v1 v2 st :
  strings v1 = strings v2 →
  _recursiveSearch v1 st = _recursiveSearch v2 st.
Proof. intros H. by rewrite !_recursiveSearch_scan, H. Qed.

End Unlocking.

(** ** More on adding and importing *)

Section Mutations.
Context {L : Libs}.
Local Open Scope Z_scope.

Lemma timestamp_tick st :
  timestamp st = (Return (clock (world st) (reads (world st))), tick st).
Proof. unfold timestamp, tick, later. cbn. do 4 f_equal. lia. Qed.


Lemma only_time_passed_trans w1 w2 w3 :
  only_time_passed w1 w2 → only_time_passed w2 w3 → only_time_passed w1 w3.
Proof.
  intros (?&?&?&?&?) (?&?&?&?&?). repeat split; congruence.
Qed.


(** Every way the [try] block of [add] can end. *)
Lemma add_try_cases st issuer name secret :
  add_try issuer name secret st
  = match TOTP_new secret issuer name with
    | Return t =>
        match TOTP_now t (clock (world st) (reads (world st))) with
        | Return _ => (Return (Some t), tick st)
        | Raise ValueError => (Return None, tick st)
        | Raise e => (Raise e, tick st)
        end
    | Raise ValueError => (Return None, st)
    | Raise e => (Raise e, st)
    end.
Proof.
  unfold add_try, try_except_ValueError, bind at 1, lift at 1.
  destruct (TOTP_new secret issuer name) as [t|e]; [|by destruct e].
  unfold bind at 1, now, bind at 1. rewrite timestamp_tick.
  unfold lift at 1.
  destruct (TOTP_now t _) as [c|e]; [done|by destruct e].
Qed.

(** Every way [add] can end: with -1 or an exception of the [try] block,
    the store untouched; after the append, with the index or with the
    [ValueError] of [_save]. *)
Lemma add_cases st issuer name secret :
  (∃ st', add_try issuer name secret st = (Return None, st')
          ∧ add issuer name secret st = (Return (-1), st')
          ∧ self st' = self st
          ∧ only_time_passed (world st) (world st'))
  ∨ (∃ e st', add issuer name secret st = (Raise e, st')
              ∧ self st' = self st
              ∧ only_time_passed (world st) (world st'))
  ∨ (∃ t, validated secret issuer name
            (clock (world st) (reads (world st))) = Return t
          ∧ add issuer name secret st
            = if fernet_key_ok (_key (self st))
              then (Return (Z.of_nat (length (_totps (self st)))),
                    saved (appended t st))
              else (Raise ValueError, appended t st)).
Proof.
  pose proof (add_try_cases st issuer name secret) as Htry.
  unfold validated.
  destruct (TOTP_new secret issuer name) as [t|e].
  - destruct (TOTP_now t _) as [c|e].
    + right. right. exists t. split; [done|].
      unfold add, bind at 1. rewrite Htry.
      unfold bind at 1, get_self at 1.
      unfold bind at 1, notify at 1, set_world at 1.
      unfold bind at 1, set_self at 1.
      unfold bind at 1, notify at 1, set_world at 1.
      unfold bind at 1.
      destruct (fernet_key_ok (_key (self st))) eqn:Hk.
      * rewrite _save_ok by done. unfold bind, get_self, ret. cbn.
        rewrite length_app. cbn. do 2 f_equal. lia.
      * by rewrite _save_bad_key by done.
    + destruct e; [left|right; left..];
        try (eexists _, (tick st); unfold add, bind at 1; rewrite Htry;
             repeat split; done).
      exists (tick st). unfold add, bind at 1. rewrite Htry.
      by repeat split.
  - destruct e; [left|right; left..];
      try (eexists _, st; unfold add, bind at 1; rewrite Htry;
           repeat split; done).
    exists st. unfold add, bind at 1. rewrite Htry. by repeat split.
Qed.

Lemma candidate_frame s st :
  self (candidate s st).2 = self st
  ∧ only_time_passed (world st) (world (candidate s st).2).
Proof.
  unfold candidate. destruct (String.prefix _ s); [|by repeat split].
  unfold try_except_ValueError, bind, lift, now, timestamp, ret. cbn.
  destruct (parse_uri s) as [t|e]; [|destruct e; by repeat split].
  destruct (TOTP_now t _) as [c|e]; [|destruct e]; by repeat split.
Qed.

(** The walk has no effect but the clock readings it takes. *)
Lemma scan_frame l st :
  self (scan l st).2 = self st
  ∧ only_time_passed (world st) (world (scan l st).2).
Proof.
  assert (H : ∀ l st r st',
             scan l st = (r, st') →
             self st' = self st ∧ only_time_passed (world st) (world st')).
  { clear. induction l as [|s l IH]; intros st r st' Hrun.
    - injection Hrun as <- <-. by repeat split.
    - cbn [scan] in Hrun. unfold bind at 1 in Hrun.
      destruct (candidate_frame s st) as [Hs Hw].
      destruct (candidate s st) as [[a|e] st1]; cbn [snd] in Hs, Hw;
        [|by injection Hrun as <- <-].
      unfold bind at 1 in Hrun.
      destruct (scan l st1) as [[b|e] st2] eqn:Hrest;
        destruct (IH _ _ _ Hrest) as [Hs' Hw'];
        injection Hrun as <- <-;
        (split; [congruence|by eapply only_time_passed_trans]). }
  destruct (scan l st) as [r st'] eqn:Hrun. by apply (H l st r).
Qed.

(** Every way [importFromFile] can end. *)
Lemma importFromFile_cases st fname :
  (∃ e st', importFromFile fname st = (Raise e, st')
            ∧ self st' = self st
            ∧ only_time_passed (world st) (world st'))
  ∨ (∃ st', importFromFile fname st = (Return tt, st')
            ∧ self st' = self st
            ∧ only_time_passed (world st) (world st'))
  ∨ (∃ found st1,
       found ≠ []
       ∧ self st1 = self st
       ∧ only_time_passed (world st) (world st1)
       ∧ importFromFile fname st
         = if fernet_key_ok (_key (self st))
           then (Return tt, saved (imported found st1))
           else (Raise ValueError, imported found st1)).
Proof.
  set (run := importFromFile fname st).
  assert (Hrun : run = importFromFile fname st) by done. clearbody run.
  unfold importFromFile, bind at 1, read_bytes in Hrun.
  destruct (files (world st) !! fname) as [raw|];
    [|left; exists OSError, st; by repeat split].
  unfold bind at 1, lift at 1 in Hrun.
  destruct (json_loads raw) as [doc|e];
    [|left; exists e, st; by repeat split].
  unfold bind at 1 in Hrun. rewrite _recursiveSearch_scan in Hrun.
  destruct (scan_frame (strings doc) st) as [Hs Hw].
  destruct (scan (strings doc) st) as [[found|e] st1]; cbn [snd] in Hs, Hw;
    [|left; by exists e, st1].
  destruct found as [|t found]; [right; left; by exists st1|].
  right. right. exists (t :: found), st1.
  split; [done|]. split; [done|]. split; [done|].
  rewrite Hrun.
  unfold bind at 1, get_self at 1.
  unfold bind at 1, notify at 1, set_world at 1.
  unfold bind at 1, set_self at 1.
  unfold bind at 1, notify at 1, set_world at 1.
  rewrite <- Hs.
  destruct (fernet_key_ok (_key (self st1))) eqn:Hk.
  - by rewrite _save_ok by done.
  - by rewrite _save_bad_key by done.
Qed.

Lemma grown_same m m' : m' = m → grown m m'.
Proof. intros ->. split; [exists []; by rewrite app_nil_r|done]. Qed.

(** X4.  [add] and [importFromFile] only ever append: however they end,
    by a return or by an exception, the rows that were there keep their
    index and content, and salt, key and both flags are untouched. *)
Theorem mutations_only_append st issuer name secret fname :
  grown (self st) (self (add issuer name secret st).2)
  ∧ grown (self st) (self (importFromFile fname st).2).
Proof.
  split.
  - destruct (add_cases st issuer name secret)
      as [(st' & _ & -> & Hs & _)|[(e & st' & -> & Hs & _)|(t & _ & ->)]];
      [by apply grown_same..|].
    destruct (fernet_key_ok _); (split; [by exists [t]|done]).
  - destruct (importFromFile_cases st fname)
      as [(e & st' & -> & Hs & _)|[(st' & -> & Hs & _)
         |(found & st1 & _ & Hs & _ & ->)]];
      [by apply grown_same..|].
    destruct (fernet_key_ok _); cbn; rewrite Hs;
      (split; [by exists found|done]).
Qed.


(** With no vault file, [unlock] ends in the state of a first run, or
    raises the [ValueError] of [_save] when [Fernet] rejects the key. *)
Lemma unlock_no_file_cases st password :
  files (world st) !! FILE_LOCATION = None →
  unlock password st = (Return tt, first_state password st)
  ∨ ∃ st1, unlock password st = (Raise ValueError, st1).
Proof.
  intros Hfile.
  set (run := unlock password st).
  assert (Hrun : run = unlock password st) by done. clearbody run.
  unfold unlock, bind at 1 in Hrun.
  rewrite (path_exists_None _ _ Hfile) in Hrun.
  unfold bind at 1, os_urandom at 1 in Hrun.
  unfold unlock_data in Hrun.
  rewrite bool_decide_eq_false_2 in Hrun
    by (rewrite length_fmap, length_seq; lia).
  rewrite take_ge in Hrun by (rewrite length_fmap, length_seq; lia).
  unfold unlock_install in Hrun.
  unfold bind at 1, notify at 1, set_world at 1 in Hrun.
  unfold bind at 1, lift at 1, py_iter in Hrun.
  unfold bind at 1 in Hrun. cbn [comprehension] in Hrun.
  unfold ret at 1 in Hrun.
  unfold bind at 1, set_self at 1 in Hrun.
  unfold bind at 1, notify at 1, set_world at 1 in Hrun.
  unfold bind at 1, set_self at 1 in Hrun.
  unfold bind at 1 in Hrun.
  erewrite path_exists_None in Hrun by (cbn; exact Hfile).
  unfold bind at 1 in Hrun.
  destruct (fernet_key_ok (derive_key
    (entropy (world st) <$> seq (drawn (world st)) 16) password)) eqn:Hk.
  - left. rewrite _save_ok in Hrun by (cbn; exact Hk). exact Hrun.
  - right. rewrite _save_bad_key in Hrun by (cbn; exact Hk). by eexists.
Qed.

Lemma saved_synced st : synced (saved st).
Proof.
  exists (clock (world st) (reads (world st))),
    (entropy (world st) <$> seq (drawn (world st)) 16).
  cbn. by rewrite lookup_insert_eq.
Qed.

(** X6.  Every mutation that reports success leaves the vault file in
    step with memory: after an [add] that returns an index, after an
    [importFromFile] that returns having changed the collection, and
    after a first [unlock] that returns, the file is the salt followed by
    a token, under the key, of the JSON list of the collection's URIs. *)
Theorem successful_mutation_syncs st st' :
  (∃ issuer name secret k,
     add issuer name secret st = (Return k, st') ∧ k ≠ -1)
  ∨ (∃ fname,
       importFromFile fname st = (Return tt, st')
       ∧ _totps (self st') ≠ _totps (self st))
  ∨ (∃ password,
       unlock password st = (Return tt, st')
       ∧ files (world st) !! FILE_LOCATION = None) →
  synced st'.
Proof.
  intros [(issuer & name & secret & k & Hrun & Hk)|[(fname & Hrun & Hne)
         |(password & Hrun & Hfile)]].
  - destruct (add_cases st issuer name secret)
      as [(st1 & _ & H & _)|[(e1 & st1 & H & _)|(t & _ & H)]];
      rewrite H in Hrun; [congruence|done|].
    destruct (fernet_key_ok _); [|done].
    injection Hrun as _ <-. apply saved_synced.
  - destruct (importFromFile_cases st fname)
      as [(e1 & st1 & H & _)|[(st1 & H & Hs & _)
         |(found & st1 & _ & _ & _ & H)]];
      rewrite H in Hrun; [done|injection Hrun as <-; congruence|].
    destruct (fernet_key_ok _); [|done].
    injection Hrun as <-. apply saved_synced.
  - destruct (unlock_no_file_cases st password Hfile) as [H|[st1 H]];
      rewrite H in Hrun; [|done].
    injection Hrun as <-.
    destruct (saved_synced
      {| self := {| _totps := [];
                    _salt := entropy (world st) <$> seq (drawn (world st)) 16;
                    _key := derive_key
                      (entropy (world st) <$> seq (drawn (world st)) 16)
                      password;
                    _unlocked := _unlocked (self st);
                    _failedToLoad := _failedToLoad (self st) |};
         world := {| files := files (world st);
                     entropy := entropy (world st);
                     drawn := (drawn (world st) + 16)%nat;
                     clock := clock (world st);
                     reads := reads (world st);
                     trace := (trace (world st) ++ [BeginResetModel])
                              ++ [EndResetModel] |} |})
      as (t & iv & Hs).
    by exists t, iv.
Qed.

(** A synced vault file opens under the password of the store's key. *)
Lemma synced_opens st password :
  fernet_round_trip →
  fernet_token_nonempty →
  synced st →
  keyed password (self st) →
  fernet_key_ok (_key (self st)) = true →
  json_round_trip (provisioning_uri <$> _totps (self st)) →
  Forall uri_round_trip (_totps (self st)) →
  ∃ data totps,
    files (world st) !! FILE_LOCATION = Some data
    ∧ opens password data totps
    ∧ provisioning_uri <$> totps = provisioning_uri <$> _totps (self st).
Proof.
  intros Hrt Hne (t & iv & Hfile) [Hsalt Hkey] Hok Hjson Huri.
  destruct (parse_items_uris _ Huri) as (totps & Hparse & Heq).
  eexists _, totps. split; [exact Hfile|]. split; [|done].
  unfold opens. split.
  - rewrite length_app, Hsalt.
    match goal with |- (_ < _ + length ?tok)%nat =>
      assert (length tok ≠ 0%nat); [|lia] end.
    intros H0. by apply (Hne _ _ _ _ (nil_length_inv _ H0)).
  - eexists _, _, _.
    rewrite take_app_length' by done.
    rewrite drop_app_length' by done.
    rewrite <- Hkey. rewrite Hrt by done. split; [done|].
    split; [exact Hjson|]. by split.
Qed.

(** X7.  A store that is keyed by a password and in step with its vault
    file survives a restart: a new process that unlocks with that
    password gets a collection with the same URIs in the same order.
    The libraries are taken to keep their contracts, as for [_save]. *)
Theorem synced_reopens st password :
  kdf_yields_fernet_key →
  fernet_round_trip →
  fernet_token_nonempty →
  synced st →
  keyed password (self st) →
  json_round_trip (provisioning_uri <$> _totps (self st)) →
  Forall uri_round_trip (_totps (self st)) →
  ∃ st2,
    unlock password (reopened st) = (Return tt, st2)
    ∧ _unlocked (self st2) = true
    ∧ _failedToLoad (self st2) = false
    ∧ provisioning_uri <$> _totps (self st2)
      = provisioning_uri <$> _totps (self st).
Proof.
  intros Hkdf Hrt Hne Hsync Hkeyed Hjson Huri.
  assert (Hok : fernet_key_ok (_key (self st)) = true)
    by (rewrite (proj2 Hkeyed); apply Hkdf).
  destruct (synced_opens st password) as (data & totps & Hfile & Hopen & Heq);
    try done.
  eexists. split; [|split; [|split]].
  - by apply unlock_opens with (data := data).
  - done.
  - done.
  - done.
Qed.

End Mutations.

(** ** More on the list-model interface and the helper object *)

Section Rows.
Context {L : Libs}.
Local Open Scope Z_scope.

Lemma data_label_row st index t :
  in_range index st →
  _totps (self st) !! Z.to_nat (Qt.row index) = Some t →
  data index Qt.DisplayRole st = (Return (DStr (display_label t)), st).
Proof.
  intros Hin Ht. unfold data, bind at 1.
  rewrite (checkIndex_in_range _ _ Hin). cbn [negb].
  unfold bind at 1, get_self at 1.
  destruct Hin as (_ & _ & _ & _ & Hr).
  destruct (getitem_in_range (_totps (self st)) (Qt.row index) st Hr)
    as (x & Hx & Hget).
  unfold bind at 1. rewrite Hget.
  assert (x = t) as -> by congruence.
  unfold display_label, truthy, present.
  by destruct (pyotp.issuer t) as [[|c i]|], (pyotp.name t) as [|d n].
Qed.

Lemma in_range_createIndex st r :
  0 ≤ r < Z.of_nat (length (_totps (self st))) →
  in_range (Qt.createIndex r 0) st.
Proof. intros Hr. by repeat split; cbn; try lia. Qed.

(** [index(r, 0)] is the invalid index outside the collection. *)
Lemma model_index_outside st r :
  ¬ (0 ≤ r < Z.of_nat (length (_totps (self st)))) →
  model_index r 0 st = (Return Qt.invalid, st).
Proof.
  intros Hr. unfold model_index, bind, rowCount, bind, get_self, ret. cbn.
  destruct (r <? 0) eqn:Hneg; [done|]. cbn.
  by rewrite (proj2 (Z.ltb_ge _ _)) by lia.
Qed.

Lemma row_data_both this st :
  Helper.row_data this Qt.UserRole st
  = (Return (row_descriptor st (_index this)), st)
  ∧ Helper.row_data this Qt.DisplayRole st
    = (Return (row_label st (_index this)), st).
Proof.
  unfold row_label, row_descriptor, Helper.row_data.
  set (r := _index this).
  destruct (decide (0 ≤ r < Z.of_nat (length (_totps (self st)))))
    as [Hr|Hr].
  - destruct (lookup_lt_is_Some_2 (_totps (self st)) (Z.to_nat r))
      as [d Hd]; [lia|].
    rewrite (proj2 (Z.ltb_ge _ _)) by lia. rewrite Hd.
    unfold bind. rewrite (model_index_row _ _ Hr).
    unfold index_data. cbn [Qt.isValid Qt.createIndex].
    rewrite (data_user_role st (Qt.createIndex r 0) d);
      [|by apply in_range_createIndex|done].
    rewrite (data_label_row st (Qt.createIndex r 0) d);
      [done|by apply in_range_createIndex|done].
  - unfold bind. rewrite (model_index_outside _ _ Hr).
    unfold index_data. cbn [Qt.isValid Qt.invalid].
    destruct (r <? 0) eqn:Hneg; [done|].
    rewrite lookup_ge_None_2 by lia. done.
Qed.

(** X9.  [index(r, 0).data(role)] never raises and never changes the
    state: for a row of the collection it is the row's descriptor
    ([UserRole]) or its label ([DisplayRole]), and for every other row
    number, negative or too large, it is [None]. *)
Theorem row_data_total this st :
  Helper.row_data this Qt.UserRole st
  = (Return (row_descriptor st (_index this)), st)
  ∧ Helper.row_data this Qt.DisplayRole st
    = (Return (row_label st (_index this)), st).
Proof. apply row_data_both. Qed.

(** X5.  An [add] that returns an index returns the row of the new
    descriptor: it is the old row count, the row count is then one more,
    [data] at that row with [UserRole] is the new descriptor, and every
    earlier row still holds the descriptor it held. *)
Theorem add_then_data st issuer name secret k st' :
  add issuer name secret st = (Return k, st') →
  k ≠ -1 →
  ∃ t,
    _totps (self st') = _totps (self st) ++ [t]
    ∧ rowCount Qt.invalid st = (Return k, st)
    ∧ rowCount Qt.invalid st' = (Return (k + 1), st')
    ∧ data (Qt.createIndex k 0) Qt.UserRole st' = (Return (DTotp t), st')
    ∧ ∀ i d,
        _totps (self st) !! i = Some d →
        data (Qt.createIndex (Z.of_nat i) 0) Qt.UserRole st'
        = (Return (DTotp d), st').
Proof.
  intros Hrun Hk.
  destruct (add_cases st issuer name secret)
    as [(st1 & _ & H & _)|[(e1 & st1 & H & _)|(t & _ & H)]];
    rewrite H in Hrun; [congruence|done|].
  destruct (fernet_key_ok _); [|done].
  injection Hrun as <- <-. exists t.
  assert (Hlen : length (_totps (self (saved (appended t st))))
                 = S (length (_totps (self st))))
    by (cbn; rewrite length_app; cbn; lia).
  split; [done|]. split; [done|]. split; [|split].
  - unfold rowCount, bind, get_self, ret. cbn [negb Qt.isValid Qt.invalid].
    rewrite Hlen. do 2 f_equal. lia.
  - apply data_user_role.
    + apply in_range_createIndex. rewrite Hlen. lia.
    + cbn. rewrite Nat2Z.id. by rewrite lookup_app_r, Nat.sub_diag.
  - intros i d Hd. apply data_user_role.
    + apply in_range_createIndex. rewrite Hlen.
      apply lookup_lt_Some in Hd. lia.
    + cbn. rewrite Nat2Z.id. by rewrite lookup_app_l_Some with (x := d).
Qed.

End Rows.

Section HelperObject.
Context {L : Libs}.
Local Open Scope Z_scope.

Lemma retime_timer_ok this : timer_ok (Helper.retime this).
Proof.
  unfold timer_ok, Helper.retime.
  destruct (bool_decide (_model this ≠ None)) eqn:Hm;
    destruct (_index this =? -1) eqn:Hi; cbn.
  - apply Z.eqb_eq in Hi. split; [done|]. by intros [_ ?].
  - apply Z.eqb_neq in Hi. apply bool_decide_eq_true in Hm. done.
  - apply bool_decide_eq_false in Hm. split; [done|]. by intros [? _].
  - apply bool_decide_eq_false in Hm. split; [done|]. by intros [? _].
Qed.

Lemma retime_fields this :
  _model (Helper.retime this) = _model this
  ∧ _index (Helper.retime this) = _index this
  ∧ _code_idx (Helper.retime this) = _code_idx this.
Proof. unfold Helper.retime. by destruct (_ && _). Qed.

(** X10.  After either setter the timer runs exactly when the model is
    set and the index is not -1, whatever the helper was before.  The
    setter stores its argument, leaves the other fields and the model
    object alone, and emits its own signal, then [currentCodeChanged],
    then [timeLeftChanged]. *)
Theorem setters_keep_timer st this model index :
  let after s :=
    {| self := self st;
       world := log (Emit timeLeftChanged)
                  (log (Emit currentCodeChanged)
                     (log (Emit s) (world st))) |} in
  ∃ this1 this2,
    Helper.model_setter this model st = (Return this1, after modelChanged)
    ∧ Helper.index_setter this index st = (Return this2, after indexChanged)
    ∧ _model this1 = model
    ∧ _index this1 = _index this
    ∧ _code_idx this1 = _code_idx this
    ∧ timer_ok this1
    ∧ _model this2 = _model this
    ∧ _index this2 = index
    ∧ _code_idx this2 = _code_idx this
    ∧ timer_ok this2.
Proof.
  intros after.
  exists (Helper.retime (Helper.with_model model this)),
    (Helper.retime (Helper.with_index index this)).
  split; [done|]. split; [done|].
  destruct (retime_fields (Helper.with_model model this)) as (? & ? & ?).
  destruct (retime_fields (Helper.with_index index this)) as (? & ? & ?).
  pose proof (retime_timer_ok (Helper.with_model model this)).
  pose proof (retime_timer_ok (Helper.with_index index this)).
  by split_and!.
Qed.

Lemma bound_not_unbound this :
  _model this ≠ None → _index this ≠ -1 → Helper.unbound this = false.
Proof.
  intros Hm Hi. unfold Helper.unbound.
  rewrite bool_decide_eq_false_2 by done.
  by rewrite (proj2 (Z.eqb_neq _ _) Hi).
Qed.

Lemma row_descriptor_Some st r d :
  0 ≤ r → _totps (self st) !! Z.to_nat r = Some d →
  row_descriptor st r = DTotp d.
Proof.
  intros Hr Hd. unfold row_descriptor.
  rewrite (proj2 (Z.ltb_ge _ _)) by lia. by rewrite Hd.
Qed.

Lemma row_descriptor_outside st r :
  ¬ (0 ≤ r < Z.of_nat (length (_totps (self st)))) →
  row_descriptor st r = DNone.
Proof.
  intros Hr. unfold row_descriptor.
  destruct (r <? 0) eqn:Hneg; [done|].
  by rewrite lookup_ge_None_2 by lia.
Qed.

(** X11.  For a helper bound to a row of the collection, [name] is the
    row's display label and [timeInterval] its period, both without
    effect, and [currentCode] reads the clock once and is whatever
    [now()] of the row's descriptor gives at that reading, a code or an
    exception. *)
Theorem bound_helper_reads st this d :
  _model this ≠ None →
  _index this ≠ -1 →
  0 ≤ _index this →
  _totps (self st) !! Z.to_nat (_index this) = Some d →
  Helper.name this st = (Return (DStr (display_label d)), st)
  ∧ Helper.timeInterval this st
    = (Return (inject_Z (pyotp.interval d)), st)
  ∧ Helper.currentCode this st
    = (TOTP_now d (clock (world st) (reads (world st))), tick st).
Proof.
  intros Hm Hi Hr Hd.
  destruct (row_data_both this st) as [Hu Hl].
  rewrite (row_descriptor_Some _ _ _ Hr Hd) in Hu.
  unfold row_label in Hl. rewrite (row_descriptor_Some _ _ _ Hr Hd) in Hl.
  unfold Helper.name, Helper.timeInterval, Helper.currentCode.
  rewrite (bound_not_unbound _ Hm Hi).
  split; [done|]. split.
  - unfold bind. by rewrite Hu.
  - unfold bind at 1. rewrite Hu. unfold now, bind.
    by rewrite timestamp_tick.
Qed.

(** X12.  For a helper whose model is set and whose index, not -1, is no
    row of the collection, [name] is [None] without raising, while
    [timeInterval], [currentCode] and [timeLeft] raise [AttributeError]
    leaving the state alone, and [_update] raises it after emitting
    [timeLeftChanged] and reading the clock. *)
Theorem stray_helper_reads st this :
  _model this ≠ None →
  _index this ≠ -1 →
  ¬ (0 ≤ _index this < Z.of_nat (length (_totps (self st)))) →
  Helper.name this st = (Return DNone, st)
  ∧ Helper.timeInterval this st = (Raise AttributeError, st)
  ∧ Helper.currentCode this st = (Raise AttributeError, st)
  ∧ timeLeft this st = (Raise AttributeError, st)
  ∧ Helper._update this st
    = (Raise AttributeError,
       tick {| self := self st;
               world := log (Emit timeLeftChanged) (world st) |}).
Proof.
  intros Hm Hi Hr.
  destruct (row_data_both this st) as [Hu Hl].
  rewrite (row_descriptor_outside _ _ Hr) in Hu.
  unfold row_label in Hl. rewrite (row_descriptor_outside _ _ Hr) in Hl.
  pose proof (bound_not_unbound _ Hm Hi) as Hb.
  split; [|split; [|split; [|split]]].
  - unfold Helper.name. by rewrite Hb.
  - unfold Helper.timeInterval. rewrite Hb. unfold bind. by rewrite Hu.
  - unfold Helper.currentCode. rewrite Hb. unfold bind. by rewrite Hu.
  - unfold timeLeft. unfold Helper.unbound in Hb. rewrite Hb.
    unfold Helper.row_data in Hu. unfold bind at 1.
    unfold bind in Hu.
    destruct (model_index (_index this) 0 st) as [[ix|e] st1]; [|done].
    unfold bind at 1. by rewrite Hu.
  - unfold Helper._update, bind at 1, emit, notify, set_world at 1.
    destruct (_model this) as [[]|]; [|done].
    set (st0 := {| self := self st;
                   world := log (Emit timeLeftChanged) (world st) |}).
    destruct (row_data_both this st0) as [Hu' _].
    rewrite (row_descriptor_outside st0 _ Hr) in Hu'.
    unfold bind at 1. rewrite Hu'.
    unfold bind. by rewrite timestamp_tick.
Qed.

(** X13.  A timer tick on a helper bound to a row whose period is not 0
    and below [2 ^ 53] in size never raises.  It emits [timeLeftChanged],
    reads the clock once at [t], and compares the float remainder
    [t % period] with the stored position: if they are equal nothing more
    happens, otherwise [currentCodeChanged] is emitted and the position
    stored.  Either way the stored position is then [t % period]. *)
Theorem update_tick st this d :
  _model this ≠ None →
  0 ≤ _index this →
  _totps (self st) !! Z.to_nat (_index this) = Some d →
  pyotp.interval d ≠ 0 →
  Z.abs (pyotp.interval d) < 2 ^ 53 →
  let t := clock (world st) (reads (world st)) in
  let c := float_rem t (inject_Z (pyotp.interval d)) in
  let st1 :=
    tick {| self := self st;
            world := log (Emit timeLeftChanged) (world st) |} in
  ∃ this',
    Helper._update this st
    = (Return this',
       if Qeq_bool c (_code_idx this) then st1
       else {| self := self st;
               world := log (Emit currentCodeChanged) (world st1) |})
    ∧ (_code_idx this' == c)%Q
    ∧ _model this' = _model this
    ∧ _index this' = _index this
    ∧ _timer this' = _timer this.
Proof.
  intros Hm Hr Hd Hp Hsmall t c st1.
  exists (if Qeq_bool c (_code_idx this) then this
          else Helper.with_code_idx c this).
  split.
  - unfold Helper._update, bind at 1, emit at 1, notify, set_world at 1.
    destruct (_model this) as [[]|]; [|done].
    set (st0 := {| self := self st;
                   world := log (Emit timeLeftChanged) (world st) |}).
    destruct (row_data_both this st0) as [Hu _].
    rewrite (row_descriptor_Some st0 _ d Hr Hd) in Hu.
    unfold bind at 1. rewrite Hu.
    unfold bind at 1. rewrite timestamp_tick.
    unfold bind at 1. rewrite (float_mod_small _ _ _ Hp Hsmall).
    match goal with
    | |- context [Qeq_bool ?x (_code_idx this)] => change x with c
    end.
    destruct (Qeq_bool c (_code_idx this)); reflexivity.
  - destruct (Qeq_bool c (_code_idx this)) eqn:Hc.
    + apply Qeq_bool_iff in Hc. repeat split; try done; by symmetry.
    + repeat split; try done; cbn; reflexivity.
Qed.

End HelperObject.


(** ** The program on the reference instance *)

Module Examples.
Import Reference.
#[local] Existing Instance libs.

(** *** The reference instance keeps the contracts *)

Lemma kdf : kdf_yields_fernet_key.
Proof.
  intros salt password. cbn.
  rewrite length_app, length_take, !length_app. cbn [length].
  apply Nat.eqb_eq. lia.
Qed.

Lemma round_trip : fernet_round_trip.
Proof.
  intros k t iv p _. cbn. unfold decrypt.
  rewrite take_app_length, decide_True by done.
  by rewrite drop_app_length.
Qed.

Lemma token_nonempty : fernet_token_nonempty.
Proof. by intros k t iv p. Qed.




(** *** The theorems at concrete states *)

Lemma save_unlock_round_trip_witness :
  ∃ st1 st2,
    _save filled = (Return tt, st1)
    ∧ unlock "hunter2" (restart st1) = (Return tt, st2)
    ∧ _unlocked (self st2) = true
    ∧ provisioning_uri <$> _totps (self st2)
      = provisioning_uri <$> _totps (self filled).
Proof.
  apply (save_unlock_round_trip filled "hunter2" kdf round_trip
           token_nonempty).
  - split; reflexivity.
  - reflexivity.
  - repeat constructor. eexists. split; reflexivity.
Defined.


Lemma unlock_wrong_password_witness :
  ∃ st',
    unlock "wrong" (put_file export_path [] filled) = (Return tt, st')
    ∧ _failedToLoad (self st') = true
    ∧ _totps (self st') = [alice]
    ∧ _unlocked (self st') = true.
Proof.
  destruct (unlock_wrong_password (put_file export_path [] filled) "wrong"
              vault kdf)
    as (st' & H1 & H2 & H3 & _ & _ & H4 & _).
  - vm_compute. reflexivity.
  - vm_compute. lia.
  - vm_compute. reflexivity.
  - exists st'. split; [exact H1|]. split; [exact H2|].
    split; [exact H3|exact H4].
Defined.

Lemma unlock_first_run_witness :
  ∃ st',
    unlock "hunter2" fresh = (Return tt, st')
    ∧ _totps (self st') = []
    ∧ _unlocked (self st') = true
    ∧ firstTime st' = (Return false, st').
Proof.
  pose proof (unlock_first_run fresh "hunter2" kdf eq_refl) as H.
  cbv zeta in H. destruct H as (st' & H1 & H2 & H3 & _ & _ & _ & _ & H4).
  exists st'. split; [exact H1|]. split; [exact H2|].
  split; [exact H3|exact H4].
Defined.

Lemma unlock_short_file_noop_witness :
  unlock "hunter2" (put_file FILE_LOCATION [x01; x02; x03] fresh)
  = (Return tt, put_file FILE_LOCATION [x01; x02; x03] fresh).
Proof.
  apply (unlock_short_file_noop _ "hunter2" [x01; x02; x03]).
  - reflexivity.
  - cbn. lia.
Defined.



Lemma timeLeft_seconds_remaining_witness :
  timeLeft TOTP_init filled = (Return 0%Q, filled)
  ∧ ∃ r st',
      timeLeft bound filled = (Return r, st')
      ∧ r = binary64
              (inject_Z 30
               - Qmod (clock (world filled) (reads (world filled)))
                   (inject_Z 30)).
Proof.
  pose proof (timeLeft_seconds_remaining filled TOTP_init) as [H0 _].
  pose proof (timeLeft_seconds_remaining filled bound) as [_ H].
  split; [apply H0; by left|].
  assert (Hm : _model bound ≠ None) by discriminate.
  assert (Hi : _index bound ≠ (-1)%Z) by discriminate.
  assert (Hp : (0 ≤ _index bound)%Z) by discriminate.
  assert (Hq : (0 < pyotp.interval alice < 2 ^ 53)%Z)
    by (split; reflexivity).
  specialize (H alice Hm Hi Hp eq_refl Hq). cbv zeta in H.
  destruct H as [_ H].
  eexists _, _. split; [apply H|reflexivity].
  vm_compute. discriminate.
Defined.

Lemma data_display_label_witness :
  data (Qt.createIndex 0 0) Qt.DisplayRole filled
  = (Return (DStr "ACME for alice"), filled).
Proof.
  apply (data_display_label filled (Qt.createIndex 0 0) alice).
  - repeat split; cbn; lia.
  - reflexivity.
Defined.

Lemma data_invalid_index_safe_witness :
  data (Qt.createIndex 7 0) Qt.UserRole filled = (Return DNone, filled)
  ∧ data (Qt.createIndex 0 0) (Qt.OtherRole 3) filled = (Return DNone, filled)
  ∧ rowCount (Qt.createIndex 0 0) filled = (Return 0%Z, filled).
Proof.
  destruct (data_invalid_index_safe filled (Qt.createIndex 7 0) Qt.UserRole)
    as (_ & H1 & H2).
  destruct (data_invalid_index_safe filled (Qt.createIndex 0 0)
              (Qt.OtherRole 3)) as (_ & H3 & _).
  split; [apply H1; right; left; by vm_compute|].
  split; [apply H3; do 4 right; by exists 3%Z|].
  apply H2. reflexivity.
Defined.

(** *** Boundary cases *)


(** A vault file of exactly 16 bytes has an empty ciphertext, which does
    not authenticate; [unlock] nevertheless installs salt and key and
    goes to unlocked, not to failed. *)
Lemma salt_only_vault_unlocks :
  let data := repeat x2a 16 in
  let st := put_file FILE_LOCATION data fresh in
  let st' := (unlock "hunter2" st).2 in
  files (world st) !! FILE_LOCATION = Some data
  ∧ (16 ≤ length data)%nat
  ∧ fernet_decrypt (derive_key (take 16 data) "hunter2") (drop 16 data)
    = None
  ∧ (unlock "hunter2" st).1 = Return tt
  ∧ _failedToLoad (self st') = false
  ∧ _unlocked (self st') = true
  ∧ _unlocked (self st) = false
  ∧ _key (self st') ≠ _key (self st).
Proof. vm_compute. repeat split; try lia; discriminate. Qed.



(** [timeLeft] is a float.  Just before the epoch the float remainder
    rounds up to the period, and [timeLeft] is 0; just after it, the
    difference rounds up to the period; and a period that is no double is
    rounded before it is used. *)
Lemma timeLeft_rounds :
  let before := (- (1 # 2 ^ 70))%Q in
  let after := (1 # 2 ^ 70)%Q in
  let big := (2 ^ 53 + 1)%Z in
  ((timeLeft bound (showing 30 before)).1 = Return 0%Q
   ∧ (inject_Z 30 - Qmod before (inject_Z 30) == 1 # 2 ^ 70)%Q)
  ∧ ((timeLeft bound (showing 30 after)).1 = Return (inject_Z 30)
     ∧ (inject_Z 30 - Qmod after (inject_Z 30) == inject_Z 30 - (1 # 2 ^ 70))%Q)
  ∧ ((timeLeft bound (showing big 0)).1 = Return (inject_Z (2 ^ 53))
     ∧ (inject_Z big - Qmod 0 (inject_Z big) == inject_Z (2 ^ 53 + 1))%Q).
Proof.
  repeat split; vm_compute; reflexivity.
Qed.

(** The round trip fails on a store reached by [unlock] and [add].
    [add] takes the empty secret, for which a code is generated; the URI
    of the descriptor has a blank secret, which [parse_uri] rejects.
    [_save] writes it, and [unlock] of a new process with the same
    password then raises [ValueError] out of [parse_uri]: the store stays
    locked and its collection empty, where the saved one had one
    descriptor. *)
Lemma blank_secret_breaks_round_trip :
  let st := (add "ACME" "alice" "" opened).2 in
  let st1 := (_save st).2 in
  let r := unlock "hunter2" (restart st1) in
  (unlock "hunter2" fresh).1 = Return tt
  ∧ (add "ACME" "alice" "" opened).1 = Return 0%Z
  ∧ _unlocked (self st) = true
  ∧ keyed "hunter2" (self st)
  ∧ _totps (self st) = [blank]
  ∧ (_save st).1 = Return tt
  ∧ parse_uri (provisioning_uri blank) = Raise ValueError
  ∧ r.1 = Raise ValueError
  ∧ _unlocked (self r.2) = false
  ∧ _totps (self r.2) = [].
Proof.
  repeat split; vm_compute; reflexivity.
Qed.

(** *** Further theorems at concrete states *)

Lemma unlock_keeps_existing_vault_witness :
  files (world (unlock "wrong" (restart filled)).2)
  = files (world (restart filled)).
Proof.
  apply (unlock_keeps_existing_vault (restart filled) "wrong" vault).
  vm_compute. reflexivity.
Defined.

Lemma unlock_bad_payload_witness :
  unlock "hunter2" (vault_holding not_json)
  = (Raise ValueError, vault_holding not_json)
  ∧ unlock "hunter2" (vault_holding (str_encode (json_text not_uris)))
    = (Raise ValueError,
       {| self := self fresh;
          world := log BeginResetModel
                     (world (vault_holding
                               (str_encode (json_text not_uris)))) |})
  ∧ unlock "hunter2" (vault_holding (str_encode (json_text not_strings)))
    = (Raise AttributeError,
       {| self := self fresh;
          world := log BeginResetModel
                     (world (vault_holding
                               (str_encode (json_text not_strings)))) |}).
Proof.
  split; [|split].
  - refine (proj1 (unlock_bad_payload (vault_holding not_json) "hunter2"
                     (repeat x2a 16 ++ fernet_encrypt
                        (derive_key (repeat x2a 16) "hunter2") 0 [] not_json)
                     not_json kdf _ _ _) ValueError _).
    + vm_compute. reflexivity.
    + vm_compute. lia.
    + vm_compute. reflexivity.
    + vm_compute. reflexivity.
  - refine (proj2 (unlock_bad_payload
                     (vault_holding (str_encode (json_text not_uris)))
                     "hunter2"
                     (repeat x2a 16 ++ fernet_encrypt
                        (derive_key (repeat x2a 16) "hunter2") 0 []
                        (str_encode (json_text not_uris)))
                     (str_encode (json_text not_uris)) kdf _ _ _)
              not_uris ValueError _ _).
    + vm_compute. reflexivity.
    + vm_compute. lia.
    + vm_compute. reflexivity.
    + vm_compute. reflexivity.
    + vm_compute. reflexivity.
  - refine (proj2 (unlock_bad_payload
                     (vault_holding (str_encode (json_text not_strings)))
                     "hunter2"
                     (repeat x2a 16 ++ fernet_encrypt
                        (derive_key (repeat x2a 16) "hunter2") 0 []
                        (str_encode (json_text not_strings)))
                     (str_encode (json_text not_strings)) kdf _ _ _)
              not_strings AttributeError _ _).
    + vm_compute. reflexivity.
    + vm_compute. lia.
    + vm_compute. reflexivity.
    + vm_compute. reflexivity.
    + vm_compute. reflexivity.
Defined.

Lemma unlock_keyed_witness : keyed "hunter2" (self opened).
Proof.
  apply (unlock_keyed fresh "hunter2" opened).
  - apply (returned (unlock "hunter2") fresh). vm_compute. reflexivity.
  - reflexivity.
  - vm_compute. reflexivity.
Defined.

Lemma add_then_data_witness :
  ∃ t,
    _totps (self filled) = _totps (self opened) ++ [t]
    ∧ rowCount Qt.invalid filled = (Return 1%Z, filled)
    ∧ data (Qt.createIndex 0 0) Qt.UserRole filled
      = (Return (DTotp t), filled).
Proof.
  destruct (add_then_data opened "ACME" "alice" "JBSWY3DPEHPK3PXP" 0%Z filled)
    as (t & H1 & _ & H2 & H3 & _).
  - apply (returned (add "ACME" "alice" "JBSWY3DPEHPK3PXP") opened).
    vm_compute. reflexivity.
  - discriminate.
  - exists t. split; [exact H1|]. split; [exact H2|exact H3].
Defined.

Lemma successful_mutation_syncs_witness : synced filled.
Proof.
  apply (successful_mutation_syncs opened filled).
  left. exists "ACME"%string, "alice"%string, "JBSWY3DPEHPK3PXP"%string, 0%Z.
  split; [|discriminate].
  apply (returned (add "ACME" "alice" "JBSWY3DPEHPK3PXP") opened).
  vm_compute. reflexivity.
Defined.

Lemma synced_reopens_witness :
  ∃ st2,
    unlock "hunter2" (reopened filled) = (Return tt, st2)
    ∧ provisioning_uri <$> _totps (self st2)
      = ["otpauth://totp/alice?secret=JBSWY3DPEHPK3PXP"].
Proof.
  destruct (synced_reopens filled "hunter2" kdf round_trip token_nonempty)
    as (st2 & H1 & _ & _ & H2).
  - exists 0%Q, []. vm_compute. reflexivity.
  - split; reflexivity.
  - reflexivity.
  - repeat constructor. eexists. split; reflexivity.
  - exists st2. split; [exact H1|exact H2].
Defined.


Lemma bound_helper_reads_witness :
  Helper.name bound filled = (Return (DStr "ACME for alice"), filled)
  ∧ Helper.timeInterval bound filled = (Return (inject_Z 30), filled)
  ∧ (Helper.currentCode bound filled).1 = Return "000000"%string.
Proof.
  destruct (bound_helper_reads filled bound alice) as (H1 & H2 & H3).
  - discriminate.
  - discriminate.
  - discriminate.
  - reflexivity.
  - split; [exact H1|]. split; [exact H2|]. by rewrite H3.
Defined.

Lemma stray_helper_reads_witness :
  Helper.name stray filled = (Return DNone, filled)
  ∧ timeLeft stray filled = (Raise AttributeError, filled).
Proof.
  destruct (stray_helper_reads filled stray) as (H1 & _ & _ & H2 & _).
  - discriminate.
  - discriminate.
  - vm_compute. intros [_ H]. discriminate H.
  - split; [exact H1|exact H2].
Defined.

Lemma update_tick_witness :
  ∃ this' st',
    Helper._update bound filled = (Return this', st')
    ∧ _model this' = Some tt.
Proof.
  pose proof (update_tick filled bound alice) as H. cbv zeta in H.
  destruct H as (this' & H1 & _ & H2 & _).
  - discriminate.
  - discriminate.
  - reflexivity.
  - discriminate.
  - reflexivity.
  - eexists this', _. split; [exact H1|exact H2].
Defined.

Lemma unlock_existing_vault_witness :
  ∃ st',
    unlock "hunter2" (restart filled) = (Return tt, st')
    ∧ _totps (self st') = [descriptor "JBSWY3DPEHPK3PXP" "alice" None]
    ∧ files (world st') = files (world (restart filled)).
Proof.
  destruct (unlock_existing_vault (restart filled) "hunter2" vault
              [descriptor "JBSWY3DPEHPK3PXP" "alice" None] kdf)
    as (st' & H1 & H2 & _ & _ & _ & _ & H3 & _).
  - vm_compute. reflexivity.
  - split; [vm_compute; lia|].
    exists (str_encode (json_dumps [provisioning_uri alice])),
      (PList [PStr (provisioning_uri alice)]),
      [PStr (provisioning_uri alice)].
    repeat split; vm_compute; reflexivity.
  - exists st'. split; [exact H1|]. split; [exact H2|exact H3].
Defined.

Lemma walk_by_strings_witness :
  _recursiveSearch export opened = _recursiveSearch export_flat opened.
Proof.
  apply (walk_by_strings export export_flat opened).
  vm_compute. reflexivity.
Defined.

End Examples.
